(** * Cashflow Commander: the database layer (src/database.py)

    A shallow embedding of [CashflowDatabase], the SQLite-backed store of the
    ledger, and the properties of its transaction store, aggregation queries
    and identity layer.

    Modelling conventions.
    - A table is the list of its rows in rowid order; the database is a record
      of its four tables together with the AUTOINCREMENT counters.
    - TEXT columns are strings.  Dates are stored as TEXT and SQLite compares
      them bytewise, which is [String.le].
    - The [amount] column is REAL: an amount is an IEEE 754 binary64 number,
      [float64], with the arithmetic of [SpecFloat] (round to nearest, ties to
      even).  SQLite stores NaN as NULL, and pandas reads a NULL of a REAL
      column as NaN.
    - The summation routines of SQLite and pandas are outside the program and
      differ between releases (plain or compensated summation, pairwise
      blocks): they are the fields of [Numerics].
    - A method that lets an exception escape returns [Raise]; the connection
      context manager rolls the transaction back, so the database is then the
      one before the call.
    - [bcrypt] and the clock are outside the program: salts and timestamps are
      arguments, and the hash functions are the fields of [Bcrypt], each of
      which returns or raises. *)

From Stdlib Require Import DecimalString DecimalZ.
From Stdlib Require Import Ascii.
From Stdlib Require Import SpecFloat.
From stdpp Require Import base decidable option numbers list strings sorting.

Local Open Scope Z_scope.

(** ** Errors *)

Inductive constraint :=
  | NotNullAmount | CheckType | CheckAmount | CheckRole | CheckStatus
  | UniqueUsername.

Inductive exn :=
  | IntegrityError (c : constraint)
  | ValueError (msg : string).

Inductive outcome (A : Type) :=
  | Ok (a : A)
  | Raise (e : exn).
Arguments Ok {A} a.
Arguments Raise {A} e.

Global Instance outcome_ret : MRet outcome := λ A a, Ok a.
Global Instance outcome_bind : MBind outcome := λ A B k m,
  match m with
  | Ok a => k a
  | Raise e => Raise e
  end.

(** ** Floating point: the REAL column *)

Definition float64 : Type := spec_float.

Global Instance float64_eq_dec : EqDecision float64.
Proof. solve_decision. Defined.

Definition fzero : float64 := S754_zero false.
Definition fadd : float64 → float64 → float64 := SFadd 53 1024.
Definition fsub : float64 → float64 → float64 := SFsub 53 1024.
Definition fdiv : float64 → float64 → float64 := SFdiv 53 1024.
Definition fopp : float64 → float64 := SFopp.

Definition is_nan (x : float64) : bool :=
  match x with
  | S754_nan => true
  | _ => false
  end.

(** [x < y] and [x <= y] on floats; both are false when an operand is NaN. *)
Definition flt (x y : float64) : Prop := SFltb x y = true.
Definition fle (x y : float64) : Prop := SFleb x y = true.

Global Instance flt_dec x y : Decision (flt x y).
Proof. unfold flt. apply _. Defined.
Global Instance fle_dec x y : Decision (fle x y).
Proof. unfold fle. apply _. Defined.

(** The float of an integer, and the float Python reads from a decimal
    numeral with two places, given in hundredths: [cents 1] is [0.01].  Below
    2^53 the integer is exact and the quotient is rounded once. *)
Definition float_of_Z (n : Z) : float64 := binary_normalize 53 1024 n 0 false.
Definition cents (n : Z) : float64 := fdiv (float_of_Z n) (float_of_Z 100).

(** The aggregates the program leaves to its libraries: [SUM] of SQLite over
    the values of a group, in the order the rows are stored, and
    [Series.sum] of pandas. *)
Class Numerics := {
  sql_sum : list float64 → float64;
  pd_sum : list float64 → float64
}.

(** Two ways to add: from left to right, starting at 0.0, and the
    compensated (Kahan-Babuska-Neumaier) summation of recent SQLite. *)
Definition sum_sequential (l : list float64) : float64 := foldl fadd fzero l.

Definition kbn_step (st : float64 * float64) (r : float64)
    : float64 * float64 :=
  let s := st.1 in
  let t := fadd s r in
  let c := if SFltb (SFabs r) (SFabs s) then fadd (fsub s t) r
           else fadd (fsub r t) s in
  (t, fadd st.2 c).

Definition is_overflow (x : float64) : bool :=
  match x with
  | S754_infinity _ | S754_nan => true
  | _ => false
  end.

Definition sum_compensated (l : list float64) : float64 :=
  let st := foldl kbn_step (fzero, fzero) l in
  if is_overflow st.2 then st.1 else fadd st.1 st.2.

Definition sequential_numerics : Numerics :=
  {| sql_sum := sum_sequential; pd_sum := sum_sequential |}.

Definition compensated_numerics : Numerics :=
  {| sql_sum := sum_compensated; pd_sum := sum_sequential |}.

(** ** Tables *)

Record transaction := Transaction {
  t_id : Z;
  t_username : string;
  t_date : string;
  t_type : string;
  t_category : string;
  t_amount : float64;
  t_description : option string;
  t_created_at : string
}.

Record category := Category {
  c_id : Z;
  c_name : string;
  c_type : string
}.

Record user := User {
  u_username : string;
  u_password_hash : string;
  u_role : string;
  u_created_at : string
}.

Record login_log := LoginLog {
  l_id : Z;
  l_username : string;
  l_login_time : string;
  l_status : string
}.

Record db := Db {
  transactions : list transaction;
  transactions_seq : Z;
  categories : list category;
  categories_seq : Z;
  users : list user;
  login_logs : list login_log;
  login_logs_seq : Z
}.

Global Instance transaction_eq_dec : EqDecision transaction.
Proof. solve_decision. Defined.
Global Instance category_eq_dec : EqDecision category.
Proof. solve_decision. Defined.
Global Instance user_eq_dec : EqDecision user.
Proof. solve_decision. Defined.

(** A database file that does not exist yet: every [CREATE TABLE IF NOT EXISTS]
    of [init_database] starts from an empty table. *)
Definition empty_db : db :=
  Db [] 0 [] 0 [] [] 0.

Definition set_transactions (s : db) (l : list transaction) (n : Z) : db :=
  Db l n (categories s) (categories_seq s) (users s) (login_logs s)
     (login_logs_seq s).

Definition set_categories (s : db) (l : list category) (n : Z) : db :=
  Db (transactions s) (transactions_seq s) l n (users s) (login_logs s)
     (login_logs_seq s).

Definition set_users (s : db) (l : list user) : db :=
  Db (transactions s) (transactions_seq s) (categories s) (categories_seq s)
     l (login_logs s) (login_logs_seq s).

Definition set_login_logs (s : db) (l : list login_log) (n : Z) : db :=
  Db (transactions s) (transactions_seq s) (categories s) (categories_seq s)
     (users s) l n.

(** The database after a call: committed on success, rolled back on an
    exception. *)
Definition commit (s : db) (r : outcome db) : db :=
  match r with
  | Ok s' => s'
  | Raise _ => s
  end.

(** ** Column constraints of the schema *)

(** [CHECK (type IN ('Income', 'Expense'))] *)
Definition check_type (ty : string) : bool :=
  bool_decide (ty = "Income") || bool_decide (ty = "Expense").

(** [CHECK (amount > 0)] *)
Definition check_amount (amount : float64) : bool := SFltb fzero amount.

(** [CHECK (role IN ('admin', 'user'))] *)
Definition check_role (role : string) : bool :=
  bool_decide (role = "admin") || bool_decide (role = "user").

(** [CHECK (status IN ('Success', 'Failure'))] *)
Definition check_status (status : string) : bool :=
  bool_decide (status = "Success") || bool_decide (status = "Failure").

(** The constraints on the columns [type] and [amount] of a row written to
    [transactions]: NaN is bound as NULL and fails [NOT NULL], which SQLite
    tests before the [CHECK]s. *)
Definition check_transaction (ty : string) (amount : float64) : outcome unit :=
  if is_nan amount then Raise (IntegrityError NotNullAmount)
  else if negb (check_type ty) then Raise (IntegrityError CheckType)
  else if negb (check_amount amount) then Raise (IntegrityError CheckAmount)
  else Ok ().

(** ** Transaction store *)

(** [INSERT INTO transactions (username, date, type, category, amount,
    description) VALUES (?, ?, ?, ?, ?, ?)]: the id is the next
    AUTOINCREMENT value and [created_at] the current timestamp. *)
Definition add_transaction (s : db) (now : string)
    (username date type category : string) (amount : float64)
    (description : option string) : outcome db :=
  check_transaction type amount;;
  let id := transactions_seq s + 1 in
  Ok (set_transactions s
        (transactions s ++
           [Transaction id username date type category amount description now])
        id).

(** [UPDATE transactions SET date = ?, type = ?, category = ?, amount = ?,
    description = ? WHERE id = ?] *)
Definition update_row (date type category : string) (amount : float64)
    (description : option string) (t : transaction) : transaction :=
  Transaction (t_id t) (t_username t) date type category amount description
    (t_created_at t).

Definition update_transaction (s : db) (transaction_id : Z)
    (date type category : string) (amount : float64)
    (description : option string) : outcome db :=
  if bool_decide (Exists (λ t, t_id t = transaction_id) (transactions s)) then
    check_transaction type amount;;
    Ok (set_transactions s
          ((λ t, if bool_decide (t_id t = transaction_id)
                 then update_row date type category amount description t
                 else t) <$> transactions s)
          (transactions_seq s))
  else Ok s.

(** [DELETE FROM transactions WHERE id = ?] *)
Definition delete_transaction (s : db) (transaction_id : Z) : outcome db :=
  Ok (set_transactions s
        (filter (λ t, t_id t ≠ transaction_id) (transactions s))
        (transactions_seq s)).

(** [DELETE FROM transactions WHERE username = ?] *)
Definition delete_all_user_transactions (s : db) (username : string)
    : outcome db :=
  Ok (set_transactions s
        (filter (λ t, t_username t ≠ username) (transactions s))
        (transactions_seq s)).

(** ** Queries of the transaction store *)

(** The columns [id, date, type, category, amount, description, created_at]
    selected by [get_all_transactions]. *)
Record ledger_row := LedgerRow {
  r_id : Z;
  r_date : string;
  r_type : string;
  r_category : string;
  r_amount : float64;
  r_description : option string;
  r_created_at : string
}.

Definition ledger_columns (t : transaction) : ledger_row :=
  LedgerRow (t_id t) (t_date t) (t_type t) (t_category t) (t_amount t)
    (t_description t) (t_created_at t).

(** [WHERE username = ?] *)
Definition owned_by (username : string) (l : list transaction)
    : list transaction :=
  filter (λ t, t_username t = username) l.

(** [ORDER BY date DESC, id DESC]: [x] may come before [y]. *)
Definition date_id_desc (x y : transaction) : Prop :=
  String.le (t_date y) (t_date x) ∧ (t_date x = t_date y → t_id y ≤ t_id x).

Global Instance date_id_desc_dec : RelDecision date_id_desc.
Proof. intros x y. unfold date_id_desc. apply _. Defined.

(** [SELECT ... FROM transactions WHERE username = ? ORDER BY date DESC,
    id DESC].  [pd.to_datetime] retypes the date column and keeps the rows and
    their order; the model keeps the stored text. *)
Definition get_all_transactions (s : db) (username : string)
    : list ledger_row :=
  ledger_columns <$> merge_sort date_id_desc (owned_by username (transactions s)).

(** [SELECT name FROM categories [WHERE type = ?] ORDER BY name] *)
Definition get_categories (s : db) (type_filter : option string)
    : list string :=
  let rows :=
    match type_filter with
    | Some ty => if bool_decide (ty = "") then categories s
                 else filter (λ c, c_type c = ty) (categories s)
    | None => categories s
    end in
  merge_sort String.le (c_name <$> rows).

(** *** Aggregation *)

(** [CASE WHEN type = 'Income' THEN amount ELSE -amount END] *)
Definition signed_amount (t : transaction) : float64 :=
  if bool_decide (t_type t = "Income") then t_amount t else fopp (t_amount t).

(** [numpy.cumsum]: the first value, then each sum with the next one. *)
Fixpoint accumulate (acc : float64) (l : list float64) : list float64 :=
  match l with
  | [] => []
  | x :: l => fadd acc x :: accumulate (fadd acc x) l
  end.

Definition np_cumsum (l : list float64) : list float64 :=
  match l with
  | [] => []
  | x :: l => x :: accumulate x l
  end.

(** [pandas.Series.cumsum] with its default [skipna=True]: a NaN is counted
    as 0.0 and shown as NaN. *)
Definition cumsum (l : list float64) : list float64 :=
  zip_with (λ x c, if is_nan x then S754_nan else c) l
    (np_cumsum ((λ x, if is_nan x then fzero else x) <$> l)).

(** A row of the frame returned by [get_cumulative_balance]. *)
Record balance_row := BalanceRow {
  b_date : string;
  b_daily_change : float64;
  b_cumulative_balance : float64
}.

(** [GROUP BY date ORDER BY date]: one group per distinct date, in ascending
    order of the date text. *)
Definition balance_dates (s : db) (username : string) : list string :=
  merge_sort String.le
    (remove_dups (t_date <$> owned_by username (transactions s))).

(** *** Dates inside SQLite

    [strftime] reads the stored text as a date and prints one of its fields:
    the year on four digits, the month on two.  The application writes dates
    as ['%Y-%m-%d'], and on the calendar dates of that form the model is
    SQLite's function.  SQLite reads more (a time of day after the date, a
    Julian day number, a day past the end of its month); the model yields
    NULL ([None]) on every other text, and no property below is stated for
    such text. *)

Definition digit_value (c : ascii) : option Z :=
  let n := Z.of_N (N_of_ascii c) in
  if bool_decide (48 ≤ n ≤ 57) then Some (n - 48) else None.

Definition is_leap_year (y : Z) : bool :=
  bool_decide (y `mod` 4 = 0) &&
  (negb (bool_decide (y `mod` 100 = 0)) || bool_decide (y `mod` 400 = 0)).

Definition days_in_month (y m : Z) : Z :=
  if bool_decide (m = 2) then (if is_leap_year y then 29 else 28)
  else if bool_decide (m = 4 ∨ m = 6 ∨ m = 9 ∨ m = 11) then 30
  else 31.

Definition parse_date (d : string) : option (Z * Z * Z) :=
  match d with
  | String y1 (String y2 (String y3 (String y4 (String s1
      (String m1 (String m2 (String s2 (String d1 (String d2 "")))))))))  =>
     a ← digit_value y1; b ← digit_value y2;
     c ← digit_value y3; e ← digit_value y4;
     f ← digit_value m1; g ← digit_value m2;
     h ← digit_value d1; i ← digit_value d2;
     let y := 1000 * a + 100 * b + 10 * c + e in
     let m := 10 * f + g in
     let dd := 10 * h + i in
     if bool_decide (s1 = "-"%char ∧ s2 = "-"%char ∧
                     1 ≤ m ≤ 12 ∧ 1 ≤ dd ≤ days_in_month y m)
     then Some (y, m, dd) else None
  | _ => None
  end.

(** Python's [str] on an [int]. *)
Definition str (n : Z) : string := NilZero.string_of_int (Z.to_int n).

(** Reading a decimal numeral, the inverse of [str]. *)
Definition int_of_str (s : string) : option Z :=
  Z.of_int <$> NilZero.int_of_string s.

Fixpoint zeros (n : nat) : string :=
  match n with
  | O => ""
  | S n => String "0" (zeros n)
  end.

(** [%0wd] on a number that is not negative. *)
Definition zero_pad (w : nat) (n : Z) : string :=
  let digits := str n in
  zeros (w - String.length digits) +:+ digits.

(** Python's [f'{n:02d}']: the sign counts towards the width. *)
Definition format_02d (n : Z) : string :=
  if bool_decide (n < 0) then str n else zero_pad 2 n.

(** [strftime('%Y', date)] and [strftime('%m', date)] *)
Definition strftime_Y (d : string) : option string :=
  '(y, _, _) ← parse_date d; Some (zero_pad 4 y).

Definition strftime_m (d : string) : option string :=
  '(_, m, _) ← parse_date d; Some (zero_pad 2 m).

(** A row of the frame returned by [get_monthly_summary]. *)
Record summary_row := SummaryRow {
  m_category : string;
  m_type : string;
  m_total : float64
}.

Definition group_key (t : transaction) : string * string :=
  (t_category t, t_type t).

(** [WHERE username = ? AND strftime('%Y', date) = ? AND
    strftime('%m', date) = ?] with the parameters
    [(username, str(year), f'{month:02d}')] *)
Definition in_month_sql (username : string) (year month : Z)
    (t : transaction) : Prop :=
  t_username t = username ∧
  strftime_Y (t_date t) = Some (str year) ∧
  strftime_m (t_date t) = Some (format_02d month).

Global Instance in_month_sql_dec u y m t : Decision (in_month_sql u y m t).
Proof. unfold in_month_sql. apply _. Defined.

Section aggregation.
Context `{Numerics}.

(** [SELECT date, SUM(CASE ...) AS daily_change FROM transactions
    WHERE username = ? GROUP BY date ORDER BY date] *)
Definition daily_change (s : db) (username d : string) : float64 :=
  sql_sum (signed_amount
             <$> filter (λ t, t_date t = d) (owned_by username (transactions s))).

Definition daily_changes (s : db) (username : string)
    : list (string * float64) :=
  (λ d, (d, daily_change s username d)) <$> balance_dates s username.

(** [df['cumulative_balance'] = df['daily_change'].cumsum()] *)
Definition get_cumulative_balance (s : db) (username : string)
    : list balance_row :=
  let df := daily_changes s username in
  zip_with (λ dc b, BalanceRow dc.1 dc.2 b) df (cumsum (df.*2)).

(** [SELECT category, type, SUM(amount) AS total ... GROUP BY category, type].
    SQL leaves the order of the groups open; the model fixes one, and the
    properties of the frame are stated up to the order of its rows. *)
Definition get_monthly_summary (s : db) (username : string) (year month : Z)
    : list summary_row :=
  let rows := filter (in_month_sql username year month) (transactions s) in
  (λ k, SummaryRow k.1 k.2
          (sql_sum (t_amount <$> filter (λ t, group_key t = k) rows)))
    <$> remove_dups (group_key <$> rows).

End aggregation.

(** ** Identity and access *)

(** A call into a library returns a value or raises; [msg] is [str(e)] of the
    exception. *)
Inductive library_result (A : Type) :=
  | Returns (a : A)
  | Raises (msg : string).
Arguments Returns {A} a.
Arguments Raises {A} msg.

(** A password every release of [bcrypt] takes: at most 72 bytes, none of
    them NUL.  A string stands for the bytes of its UTF-8 encoding. *)
Definition bcrypt_input (password : string) : Prop :=
  (String.length password ≤ 72)%nat ∧
  "000"%char ∉ String.list_ascii_of_string password.

Global Instance bcrypt_input_dec password : Decision (bcrypt_input password).
Proof. unfold bcrypt_input. apply _. Defined.

(** The two functions of the [bcrypt] package the program calls, on
    [password.encode('utf-8')].  [hashpw] takes the salt that [gensalt()]
    drew.  Either may raise [ValueError] (bcrypt 5 does on a password of more
    than 72 bytes, where earlier releases cut the password).  A hash verifies
    the password it was made from. *)
Class Bcrypt := {
  hashpw : string → string → library_result string;
  checkpw : string → string → library_result bool;
  checkpw_hashpw : ∀ password salt hashed,
    hashpw password salt = Returns hashed →
    checkpw password hashed = Returns true;
  hashpw_returns : ∀ password salt,
    bcrypt_input password → ∃ hashed, hashpw password salt = Returns hashed
}.

(** A hash function good enough to run the program on examples: the salt is
    kept in front of the password, and a password of more than 72 bytes is
    refused as bcrypt 5 refuses it. *)
Definition too_long : string :=
  "password cannot be longer than 72 bytes, truncate manually if necessary (e.g. my_password[:72])".

Definition plain_hashpw (password salt : string) : library_result string :=
  if bool_decide (String.length password ≤ 72)%nat
  then Returns (salt +:+ "$" +:+ password)
  else Raises too_long.

Fixpoint plain_match (password h : string) : bool :=
  match h with
  | "" => false
  | String c h =>
      bool_decide (c = "$"%char ∧ h = password) || plain_match password h
  end.

Definition plain_checkpw (password h : string) : library_result bool :=
  if bool_decide (String.length password ≤ 72)%nat
  then Returns (plain_match password h)
  else Raises too_long.

Section identity.
Context `{Bcrypt}.

(** [INSERT INTO users (username, password_hash, role) VALUES (?, ?, ?)] *)
Definition insert_user (s : db) (now username hashed role : string)
    : outcome db :=
  if negb (check_role role) then Raise (IntegrityError CheckRole)
  else if bool_decide (Exists (λ u, u_username u = username) (users s))
  then Raise (IntegrityError UniqueUsername)
  else Ok (set_users s (users s ++ [User username hashed role now])).

(** [add_user]: [hashpw] runs first, inside the [try]; an [IntegrityError]
    of the INSERT is answered with "Username already exists", every other
    exception with its own message. *)
Definition add_user (s : db) (now salt username password role : string)
    : db * (bool * string) :=
  match hashpw password salt with
  | Returns hashed =>
      match insert_user s now username hashed role with
      | Ok s' => (s', (true, "User created successfully"))
      | Raise (IntegrityError _) => (s, (false, "Username already exists"))
      | Raise (ValueError msg) => (s, (false, msg))
      end
  | Raises msg => (s, (false, msg))
  end.

(** [SELECT password_hash, role FROM users WHERE username = ?] followed by
    [fetchone()] *)
Definition fetch_user (s : db) (username : string) : option (string * string) :=
  '(_, u) ← list_find (λ u, u_username u = username) (users s);
  Some (u_password_hash u, u_role u).

(** [verify_user]: [checkpw] runs only when the user row exists, and outside
    any [try]. *)
Definition verify_user (s : db) (username password : string)
    : outcome (bool * option string) :=
  match fetch_user s username with
  | Some (stored_hash, role) =>
      match checkpw password stored_hash with
      | Returns true => Ok (true, Some role)
      | Returns false => Ok (false, None)
      | Raises msg => Raise (ValueError msg)
      end
  | None => Ok (false, None)
  end.

(** [update_password]: [hashpw] runs first, inside the [try]; then
    [UPDATE users SET password_hash = ? WHERE username = ?]. *)
Definition update_password (s : db) (salt username new_password : string)
    : db * (bool * string) :=
  match hashpw new_password salt with
  | Returns hashed =>
      (set_users s
         ((λ u, if bool_decide (u_username u = username)
                then User (u_username u) hashed (u_role u) (u_created_at u)
                else u) <$> users s),
       (true, "Password updated successfully"))
  | Raises msg => (s, (false, msg))
  end.

(** [INSERT INTO login_logs (username, status) VALUES (?, ?)] *)
Definition log_login (s : db) (now username status : string) : outcome db :=
  if negb (check_status status) then Raise (IntegrityError CheckStatus)
  else
    let id := login_logs_seq s + 1 in
    Ok (set_login_logs s (login_logs s ++ [LoginLog id username now status]) id).

(** ** Initialisation *)

Definition default_categories : list (string * string) :=
  [ ("Sales", "Income"); ("Services", "Income"); ("Other Income", "Income");
    ("Rent", "Expense"); ("Supplies", "Expense"); ("Utilities", "Expense");
    ("Marketing", "Expense"); ("Insurance", "Expense");
    ("Other Expense", "Expense") ].

(** [INSERT OR IGNORE INTO categories (name, type) VALUES (?, ?)]: the
    AUTOINCREMENT counter advances also when the row is ignored. *)
Definition insert_or_ignore_category (s : db) (nt : string * string) : db :=
  let id := categories_seq s + 1 in
  if bool_decide (Exists (λ c, c_name c = nt.1) (categories s))
  then set_categories s (categories s) id
  else set_categories s (categories s ++ [Category id nt.1 nt.2]) id.

(** The loop over [default_categories]. *)
Definition seed_categories (s : db) : db :=
  foldl insert_or_ignore_category s default_categories.

(** [SELECT count( * ) FROM users WHERE role='admin'] *)
Definition count_admins (s : db) : nat :=
  length (filter (λ u, u_role u = "admin") (users s)).

(** [init_database] on a database whose [transactions] table, if it exists,
    already has the [username] column: the tables are created if missing,
    the default categories seeded, and the default admin created when no
    user has the admin role.  All of it is one transaction. *)
Definition init_database (s : db) (now salt : string) : outcome db :=
  let s1 := seed_categories s in
  if bool_decide (count_admins s1 = 0%nat) then
    let password := "admin123" in
    match hashpw password salt with
    | Returns hashed => insert_user s1 now "admin" hashed "admin"
    | Raises msg => Raise (ValueError msg)
    end
  else Ok s1.

(** ** The states of a database file

    Every method is called on a [CashflowDatabase] object, whose constructor
    has run [init_database]; the file it opens is new, or was written by an
    earlier version that had no user accounts, or was left by an earlier
    object. *)

Inductive call :=
  | AddTransaction (now username date type category : string) (amount : float64)
      (description : option string)
  | UpdateTransaction (transaction_id : Z) (date type category : string)
      (amount : float64) (description : option string)
  | DeleteTransaction (transaction_id : Z)
  | DeleteAllUserTransactions (username : string)
  | AddUser (now salt username password role : string)
  | UpdatePassword (salt username new_password : string)
  | LogLogin (now username status : string).

Definition run (c : call) (s : db) : db :=
  match c with
  | AddTransaction now username date type category amount description =>
      commit s (add_transaction s now username date type category amount
                  description)
  | UpdateTransaction transaction_id date type category amount description =>
      commit s (update_transaction s transaction_id date type category amount
                  description)
  | DeleteTransaction transaction_id =>
      commit s (delete_transaction s transaction_id)
  | DeleteAllUserTransactions username =>
      commit s (delete_all_user_transactions s username)
  | AddUser now salt username password role =>
      (add_user s now salt username password role).1
  | UpdatePassword salt username new_password =>
      (update_password s salt username new_password).1
  | LogLogin now username status =>
      commit s (log_login s now username status)
  end.

Inductive opened : db → Prop :=
  | opened_first s now salt s' :
      users s = [] → init_database s now salt = Ok s' → opened s'
  | opened_again s now salt s' :
      opened s → init_database s now salt = Ok s' → opened s'
  | opened_call s c :
      opened s → opened (run c s).

End identity.

(** The example hash as an instance of the interface. *)
Definition plain_bcrypt : Bcrypt.
Proof.
  refine {| hashpw := plain_hashpw; checkpw := plain_checkpw |}.
  - intros password salt hashed. unfold plain_hashpw, plain_checkpw.
    case_bool_decide; [|done]. intros [= <-]. f_equal.
    induction salt as [|c salt IH]; simpl.
    + by rewrite bool_decide_true.
    + change (plain_match password (salt +:+ "$" +:+ password) = true) in IH.
      rewrite IH. apply orb_true_r.
  - intros password salt [Hlen _]. unfold plain_hashpw.
    rewrite bool_decide_true by done. by eexists.
Defined.

(** ** The specification's vocabulary *)

(** The table constraints on a stored transaction. *)
Definition row_ok (t : transaction) : Prop :=
  (t_type t = "Income" ∨ t_type t = "Expense") ∧ flt fzero (t_amount t).

Definition schema_ok (s : db) : Prop := Forall row_ok (transactions s).

(** No stored id exceeds the AUTOINCREMENT counter. *)
Definition ids_bounded (s : db) : Prop :=
  Forall (λ t, t_id t ≤ transactions_seq s) (transactions s).

(** Strict bytewise order on dates. *)
Definition date_lt (d1 d2 : string) : Prop := String.le d1 d2 ∧ d1 ≠ d2.

(** The date falls in the calendar month [month] of [year]. *)
Definition in_month (year month : Z) (d : string) : Prop :=
  ∃ dd, parse_date d = Some (year, month, dd).

Global Instance in_month_dec year month d : Decision (in_month year month d).
Proof.
  unfold in_month. destruct (parse_date d) as [[[y m] dd]|].
  - destruct (decide (y = year ∧ m = month)) as [[-> ->]|Hne].
    + left. by exists dd.
    + right. intros [dd' Heq]. naive_solver.
  - right. by intros [dd' ?].
Defined.

(** A calendar date ['YYYY-MM-DD'] whose year has four significant digits. *)
Definition supported_date (d : string) : Prop :=
  ∃ y m dd, parse_date d = Some (y, m, dd) ∧ 1000 ≤ y.

(** The (category, kind) pair of a summary row. *)
Definition summary_key (r : summary_row) : string * string :=
  (m_category r, m_type r).

(** The transactions of an owner in a calendar month. *)
Definition in_month_of (username : string) (year month : Z)
    (t : transaction) : Prop :=
  t_username t = username ∧ in_month year month (t_date t).

Global Instance in_month_of_dec u y m t : Decision (in_month_of u y m t).
Proof. unfold in_month_of. apply _. Defined.

(** The listing filtered to a month on the client:
    [df[(df['year'] == selected_year) & (df['month'] == selected_month)]]. *)
Definition month_rows (s : db) (username : string) (year month : Z)
    : list ledger_row :=
  filter (λ r, in_month year month (r_date r)) (get_all_transactions s username).

(** ** The ledger page (src/app.py)

    "Delete Transaction": the page is shown when the listing of the signed-in
    user is not empty; the id is entered in a number field bounded by 1 and
    by the largest id of the rows listed (all of the user's rows when no
    filter is set), and passed to [delete_transaction]. *)
Definition largest_id (rows : list ledger_row) : Z :=
  foldr Z.max 0 (r_id <$> rows).

Definition ledger_delete (s : db) (username : string) (delete_id : Z)
    : outcome db :=
  let filtered_df := get_all_transactions s username in
  if bool_decide (filtered_df ≠ [] ∧ 1 ≤ delete_id ≤ largest_id filtered_df)
  then delete_transaction s delete_id
  else Ok s.

(** The store with the transaction [t] taken out. *)
Definition without (t : transaction) (s : db) : db :=
  set_transactions s (filter (λ t', t' ≠ t) (transactions s))
    (transactions_seq s).

(** ** The rest of the database layer *)

(** [SELECT username, role, created_at FROM users] *)
Definition get_all_users (s : db) : list (string * string * string) :=
  (λ u, (u_username u, u_role u, u_created_at u)) <$> users s.

(** [SELECT * FROM login_logs ORDER BY login_time DESC] *)
Definition login_time_desc (x y : login_log) : Prop :=
  String.le (l_login_time y) (l_login_time x).

Global Instance login_time_desc_dec : RelDecision login_time_desc.
Proof. intros x y. unfold login_time_desc. apply _. Defined.

Definition get_login_logs (s : db) : list login_log :=
  merge_sort login_time_desc (login_logs s).

(** ** The pages (src/app.py)

    A form is modelled by what its submit branch does with the database; a
    text field holds a string, and [len] of it is its number of characters. *)

Record session := Session {
  logged_in : bool;
  user_role : option string;
  session_username : option string
}.

Definition anonymous : session := Session false None None.

Record metrics := Metrics {
  total_income : float64;
  total_expenses : float64;
  net_flow : float64;
  current_balance : float64
}.

Section dashboard.
Context `{Numerics}.

(** [filtered_df[filtered_df['type'] == kind]['amount'].sum()] *)
Definition amount_of_kind (kind : string) (rows : list ledger_row) : float64 :=
  pd_sum (r_amount <$> filter (λ r, r_type r = kind) rows).

(** The key metrics of the dashboard. *)
Definition dashboard_metrics (s : db) (username : string) (year month : Z)
    : metrics :=
  let filtered_df := month_rows s username year month in
  if bool_decide (filtered_df ≠ []) then
    let income := amount_of_kind "Income" filtered_df in
    let expenses := amount_of_kind "Expense" filtered_df in
    let cumulative_df := get_cumulative_balance s username in
    Metrics income expenses (fsub income expenses)
      (from_option b_cumulative_balance fzero (last cumulative_df))
  else Metrics fzero fzero fzero fzero.

End dashboard.

(** The ledger sorted "Oldest First":
    [sort_values(['date', 'id'], ascending=[True, True])]. *)
Definition date_id_asc (x y : ledger_row) : Prop :=
  String.le (r_date x) (r_date y) ∧ (r_date x = r_date y → r_id x ≤ r_id y).

Global Instance date_id_asc_dec : RelDecision date_id_asc.
Proof. intros x y. unfold date_id_asc. apply _. Defined.

Definition oldest_first (s : db) (username : string) : list ledger_row :=
  merge_sort date_id_asc (get_all_transactions s username).

Section pages.
Context `{Bcrypt}.

(** The login form: [verify_user] is called outside any [try]. *)
Definition login_submit (s : db) (st : session) (now username password : string)
    : outcome (db * session) :=
  '(success, role) ← verify_user s username password;
  if (success : bool) then
    s' ← log_login s now username "Success";
    Ok (s', Session true role (Some username))
  else
    s' ← log_login s now username "Failure";
    Ok (s', st).

(** The sign-up form. *)
Definition signup_submit (s : db)
    (now salt new_user new_pass confirm_pass : string) : db * (bool * string) :=
  if bool_decide (new_pass ≠ confirm_pass)
  then (s, (false, "Passwords do not match"))
  else if bool_decide (String.length new_pass < 6)%nat
  then (s, (false, "Password must be at least 6 characters"))
  else
    let r := add_user s now salt new_user new_pass "user" in
    if r.2.1 then (r.1, (true, "Account created! Please login."))
    else (r.1, (false, r.2.2)).

(** The reset-password form of the admin dashboard; the user is picked from
    the names [get_all_users] lists. *)
Definition reset_submit (s : db) (salt reset_username reset_new_pass : string)
    : db * (bool * string) :=
  if bool_decide (String.length reset_new_pass < 6)%nat
  then (s, (false, "Password must be at least 6 characters"))
  else
    let r := update_password s salt reset_username reset_new_pass in
    if r.2.1
    then (r.1, (true, "Password for " +:+ reset_username +:+
                      " updated successfully!"))
    else (r.1, (false, r.2.2)).

End pages.

(** ** Key constraints of the schema *)

(** [id INTEGER PRIMARY KEY AUTOINCREMENT] on [transactions]. *)
Definition ids_ok (s : db) : Prop :=
  ids_bounded s ∧ NoDup (t_id <$> transactions s).

(** [username TEXT PRIMARY KEY] on [users]. *)
Definition users_key (s : db) : Prop := NoDup (u_username <$> users s).

(** [name TEXT UNIQUE NOT NULL] on [categories]. *)
Definition categories_key (s : db) : Prop := NoDup (c_name <$> categories s).

(** ** Example databases

    The scenarios of the specification: alice records Income/Sales/100 and
    Expense/Rent/40 on 2024-01-05 and Income/Sales/50 on 2024-02-01; bob
    records one sale of his own. *)

Definition after (s : db) (calls : list call) : db :=
  foldl (λ s c, run (H:=plain_bcrypt) c s) s calls.

Definition fresh_db : db :=
  commit empty_db
    (init_database (H:=plain_bcrypt) empty_db "2024-01-01 08:00:00" "salt0").

Definition alice_db : db :=
  after fresh_db
    [ AddUser "2024-01-02 09:00:00" "salt1" "alice" "wonderland" "user";
      AddTransaction "2024-01-05 10:00:00" "alice" "2024-01-05" "Income"
        "Sales" (cents 10000) None;
      AddTransaction "2024-01-05 11:00:00" "alice" "2024-01-05" "Expense"
        "Rent" (cents 4000) (Some "office") ].

Definition ledger_db : db :=
  after alice_db
    [ AddUser "2024-01-06 09:00:00" "salt2" "bob" "builder" "user";
      AddTransaction "2024-02-01 10:00:00" "alice" "2024-02-01" "Income"
        "Sales" (cents 5000) None;
      AddTransaction "2024-02-02 10:00:00" "bob" "2024-01-05" "Income"
        "Services" (cents 700) None ].

Definition alice_sale : transaction :=
  Transaction 1 "alice" "2024-01-05" "Income" "Sales" (cents 10000) None
    "2024-01-05 10:00:00".

Definition ancient_db : db :=
  after fresh_db
    [ AddUser "2024-01-02 09:00:00" "salt1" "alice" "wonderland" "user";
      AddTransaction "2024-01-05 10:00:00" "alice" "0999-01-15" "Income"
        "Sales" (cents 10000) None ].

(** Small change: alice sells for 0.10 and 0.20 and pays 0.30, on three days
    of one month. *)
Definition small_change_db : db :=
  after fresh_db
    [ AddUser "2024-01-02 09:00:00" "salt1" "alice" "wonderland" "user";
      AddTransaction "2024-01-05 10:00:00" "alice" "2024-01-05" "Income"
        "Sales" (cents 10) None;
      AddTransaction "2024-01-06 10:00:00" "alice" "2024-01-06" "Income"
        "Sales" (cents 20) None;
      AddTransaction "2024-01-07 10:00:00" "alice" "2024-01-07" "Expense"
        "Rent" (cents 30) None ].

(** A file whose only user is called "admin" and has the role 'user'. *)
Definition admin_name_taken_db : db :=
  set_users empty_db [User "admin" "salt7$letmein" "user" "2023-12-31 23:59:59"].

(** A file with one user, bob, who has the role 'user', and no admin. *)
Definition no_admin_db : db :=
  set_users empty_db [User "bob" "salt2$builder" "user" "2023-12-31 23:59:59"].

(** A password of 73 bytes. *)
Definition long_password : string := zeros 73.

(** * Properties *)

(** ** Records and filters *)

Lemma set_transactions_same (s : db) :
  set_transactions s (transactions s) (transactions_seq s) = s.
Proof. by destruct s. Qed.

Lemma set_users_same (s : db) : set_users s (users s) = s.
Proof. by destruct s. Qed.

Lemma filter_all {A} (P : A → Prop) `{∀ x, Decision (P x)} (l : list A) :
  Forall P l → filter P l = l.
Proof.
  induction 1 as [|x l Hx _ IH]; [done|].
  by rewrite filter_cons_True, IH.
Qed.

Lemma filter_none {A} (P : A → Prop) `{∀ x, Decision (P x)} (l : list A) :
  Forall (λ x, ¬ P x) l → filter P l = [].
Proof.
  induction 1 as [|x l Hx _ IH]; [done|].
  by rewrite filter_cons_False.
Qed.

Lemma fmap_unchanged {A} (f : A → A) (l : list A) :
  Forall (λ x, f x = x) l → f <$> l = l.
Proof.
  induction 1 as [|x l Hx _ IH]; [done|].
  by rewrite fmap_cons, Hx, IH.
Qed.

(** ** Comparisons with zero *)

Lemma flt_not_nan (x y : float64) : flt x y → is_nan y = false.
Proof.
  unfold flt, SFltb, SFcompare. destruct y; [done..| |done].
  by destruct x.
Qed.

(** A float that is at most 0 is not above 0. *)
Lemma fle_zero_not_positive (x : float64) :
  fle x fzero → check_amount x = false.
Proof.
  unfold fle, check_amount, fzero, SFleb, SFltb, SFcompare.
  destruct x as [[]|[]| |[] m e]; done.
Qed.

Lemma check_transaction_ok (ty : string) (amount : float64) :
  ty = "Income" ∨ ty = "Expense" → flt fzero amount →
  check_transaction ty amount = Ok ().
Proof.
  intros Hty Hpos. unfold check_transaction, check_type, check_amount.
  rewrite (flt_not_nan _ _ Hpos). unfold flt in Hpos. rewrite Hpos.
  by destruct Hty as [-> | ->].
Qed.

Lemma check_transaction_raise (ty : string) (amount : float64) :
  fle amount fzero ∨ (ty ≠ "Income" ∧ ty ≠ "Expense") →
  ∃ c, check_transaction ty amount = Raise (IntegrityError c).
Proof.
  intros Hbad. unfold check_transaction, check_type.
  destruct (is_nan amount); [by eexists|].
  destruct (decide (ty = "Income")) as [->|Hi]; simpl.
  - destruct Hbad as [Hle|[? _]]; [|done].
    rewrite (fle_zero_not_positive _ Hle). by eexists.
  - rewrite (bool_decide_false (ty = "Income")) by done.
    destruct (decide (ty = "Expense")) as [->|He]; simpl.
    + destruct Hbad as [Hle|[_ ?]]; [|done].
      rewrite (fle_zero_not_positive _ Hle). by eexists.
    + rewrite bool_decide_false by done. by eexists.
Qed.

Lemma check_transaction_inv (ty : string) (amount : float64) :
  check_transaction ty amount = Ok () →
  (ty = "Income" ∨ ty = "Expense") ∧ flt fzero amount.
Proof.
  unfold check_transaction, check_type, check_amount, flt.
  destruct (is_nan amount); [done|].
  destruct (decide (ty = "Income")) as [->|Hi];
    [|destruct (decide (ty = "Expense")) as [->|He]].
  - simpl. destruct (SFltb fzero amount); [auto|done].
  - simpl. destruct (SFltb fzero amount); [auto|done].
  - rewrite !bool_decide_false by done. done.
Qed.

(** ** Transaction store: validation on insert *)

(** C2, as the code has it: [add_transaction] fails with an integrity error
    and leaves the database as it was whenever the amount is not positive or
    the kind is neither Income nor Expense; with a positive amount (0.01 is
    [cents 1]) and a valid kind it appends the row under the next id,
    whatever the category: the category is not looked up in the registry. *)
Theorem add_transaction_checks (s : db) (now username date type category : string)
    (amount : float64) (description : option string) :
  (fle amount fzero ∨ (type ≠ "Income" ∧ type ≠ "Expense") →
     ∃ c, add_transaction s now username date type category amount description
            = Raise (IntegrityError c) ∧
          commit s (add_transaction s now username date type category amount
                      description) = s) ∧
  (flt fzero amount → type = "Income" ∨ type = "Expense" →
     add_transaction s now username date type category amount description
       = Ok (set_transactions s
               (transactions s ++
                  [Transaction (transactions_seq s + 1) username date type
                     category amount description now])
               (transactions_seq s + 1))).
Proof.
  split.
  - intros Hbad. destruct (check_transaction_raise type amount Hbad) as [c Hc].
    exists c. unfold add_transaction. by rewrite Hc.
  - intros Hpos Hty. unfold add_transaction.
    by rewrite (check_transaction_ok type amount Hty Hpos).
Qed.

Lemma add_transaction_checks_witness :
  (∃ c, add_transaction fresh_db "now" "alice" "2024-01-05" "Income" "Sales"
          (cents 0) None = Raise (IntegrityError c) ∧
        commit fresh_db
          (add_transaction fresh_db "now" "alice" "2024-01-05" "Income" "Sales"
             (cents 0) None) = fresh_db) ∧
  add_transaction fresh_db "now" "alice" "2024-01-05" "Income" "Sales"
    (cents 1) None
    = Ok (set_transactions fresh_db
            (transactions fresh_db ++
               [Transaction (transactions_seq fresh_db + 1) "alice"
                  "2024-01-05" "Income" "Sales" (cents 1) None "now"])
            (transactions_seq fresh_db + 1)).
Proof.
  split.
  - apply (add_transaction_checks fresh_db "now" "alice" "2024-01-05" "Income"
             "Sales" (cents 0) None). left. by vm_compute.
  - apply (add_transaction_checks fresh_db "now" "alice" "2024-01-05" "Income"
             "Sales" (cents 1) None); [by vm_compute | by left].
Defined.

(** C2, as stated, fails: a category that is absent from the registry is
    accepted. *)
Lemma add_transaction_unregistered_category :
  ("Bitcoin" ∉ c_name <$> categories fresh_db) ∧
  ∃ s', add_transaction fresh_db "now" "alice" "2024-01-05" "Income" "Bitcoin"
          (cents 1) None = Ok s' ∧
        t_category <$> transactions s' = ["Bitcoin"].
Proof.
  split.
  - apply (bool_decide_unpack _). by vm_compute.
  - eexists. split; [by vm_compute|]. by vm_compute.
Qed.

(** A row inserted later has a larger id than every row already stored, so
    "id descending" lists the most recently inserted row first. *)
Lemma add_transaction_newest (s s' : db) (now username date type category : string)
    (amount : float64) (description : option string) :
  ids_bounded s →
  add_transaction s now username date type category amount description = Ok s' →
  ∃ t, transactions s' = transactions s ++ [t] ∧
       Forall (λ t', t_id t' < t_id t) (transactions s) ∧
       ids_bounded s'.
Proof.
  unfold ids_bounded, add_transaction. intros Hb Hadd.
  destruct (check_transaction type amount) as [[]|]; simplify_eq/=.
  eexists. split; [done|]. split.
  - eapply Forall_impl; [exact Hb|]. intros t' Ht'; simpl in *. lia.
  - apply Forall_app. split.
    + eapply Forall_impl; [exact Hb|]. intros t' Ht'; simpl in *. lia.
    + constructor; [simpl; lia|constructor].
Qed.

(** ** Transaction store: update and delete by id *)

Lemma Exists_id_absent (transaction_id : Z) (l : list transaction) :
  Forall (λ t, t_id t ≠ transaction_id) l →
  ¬ Exists (λ t, t_id t = transaction_id) l.
Proof. rewrite Forall_Exists_neg. done. Qed.

(** C4, as the code has it: for an id that no stored transaction has,
    [update_transaction] raises nothing and returns the database unchanged,
    whatever the new field values are. *)
Theorem update_transaction_absent (s : db) (transaction_id : Z)
    (date type category : string) (amount : float64)
    (description : option string) :
  Forall (λ t, t_id t ≠ transaction_id) (transactions s) →
  update_transaction s transaction_id date type category amount description
    = Ok s.
Proof.
  intros Habs. unfold update_transaction.
  by rewrite bool_decide_false by by apply Exists_id_absent.
Qed.

Lemma update_transaction_absent_witness :
  Forall (λ t, t_id t ≠ 42) (transactions ledger_db) ∧
  update_transaction ledger_db 42 "2024-03-01" "Expense" "Rent"
    (fopp (cents 5)) None
    = Ok ledger_db.
Proof.
  assert (Forall (λ t, t_id t ≠ 42) (transactions ledger_db)) as Habs.
  { apply (bool_decide_unpack _). by vm_compute. }
  split; [exact Habs|].
  exact (update_transaction_absent ledger_db 42 "2024-03-01" "Expense" "Rent"
           (fopp (cents 5)) None Habs).
Defined.

(** C4, as stated, fails: updating an id that is absent from the store
    succeeds silently. *)
Lemma update_transaction_absent_no_error :
  Forall (λ t, t_id t ≠ 42) (transactions ledger_db) ∧
  update_transaction ledger_db 42 "2024-03-01" "Expense" "Rent" (cents 100) None
    = Ok ledger_db.
Proof.
  split; [apply (bool_decide_unpack _)|]; by vm_compute.
Qed.

(** C7: [delete_transaction] never raises, a second call with the same id
    changes nothing more, and on an id that is absent the database is left as
    it was. *)
Theorem delete_transaction_idempotent (s : db) (transaction_id : Z) :
  ∃ s1, delete_transaction s transaction_id = Ok s1 ∧
        delete_transaction s1 transaction_id = Ok s1 ∧
        (Forall (λ t, t_id t ≠ transaction_id) (transactions s) → s1 = s).
Proof.
  eexists. split; [reflexivity|]. split.
  - unfold delete_transaction, set_transactions; simpl.
    do 2 f_equal. apply filter_all.
    apply Forall_forall. intros t Ht. by apply list_elem_of_filter in Ht as [? _].
  - intros Habs. rewrite filter_all by done. apply set_transactions_same.
Qed.

Lemma delete_transaction_idempotent_witness :
  ∃ s1, delete_transaction ledger_db 42 = Ok s1 ∧
        delete_transaction s1 42 = Ok s1 ∧ s1 = ledger_db.
Proof.
  destruct (delete_transaction_idempotent ledger_db 42) as (s1 & H1 & H2 & H3).
  exists s1. split; [exact H1|]. split; [exact H2|].
  apply H3. apply (bool_decide_unpack _). by vm_compute.
Defined.

(** ** Owner scope *)

Lemma filter_without (P : transaction → Prop) `{∀ x, Decision (P x)}
    (t : transaction) (l : list transaction) :
  ¬ P t → filter P (filter (λ t', t' ≠ t) l) = filter P l.
Proof.
  intros Ht. rewrite list_filter_filter. apply list_filter_iff.
  intros x. split; [tauto|]. intros Hx. split; [done|]. by intros ->.
Qed.

Lemma elem_of_update_other (l : list transaction) (t : transaction)
    (f : transaction → transaction) (transaction_id : Z) :
  t ∈ l → t_id t ≠ transaction_id →
  t ∈ (λ t', if bool_decide (t_id t' = transaction_id) then f t' else t') <$> l.
Proof.
  intros Hin Hne. apply list_elem_of_fmap. exists t. split; [|done].
  by rewrite bool_decide_false.
Qed.

Section owner_scope.
Context `{Numerics}.


End owner_scope.



(** ** Identity and access *)

Section identity_properties.
Context `{Bcrypt}.

Lemma fetch_user_absent (s : db) (username : string) :
  Forall (λ u, u_username u ≠ username) (users s) →
  fetch_user s username = None.
Proof.
  intros Habs. unfold fetch_user.
  by rewrite (proj2 (list_find_None _ _) Habs).
Qed.

Lemma fetch_user_first (l : list user) (u : user) (s : db) :
  users s = l ++ [u] → Forall (λ v, u_username v ≠ u_username u) l →
  fetch_user s (u_username u) = Some (u_password_hash u, u_role u).
Proof.
  intros Hus Habs. unfold fetch_user. rewrite Hus.
  rewrite list_find_app_r by by apply list_find_None.
  simpl. by rewrite decide_True.
Qed.

(** The row [fetchone()] returns is a stored user of that name. *)
Lemma fetch_user_elem (s : db) (username stored_hash role : string) :
  fetch_user s username = Some (stored_hash, role) →
  ∃ u, u ∈ users s ∧ u_username u = username ∧
       u_password_hash u = stored_hash ∧ u_role u = role.
Proof.
  unfold fetch_user. intros Hf.
  destruct (list_find _ (users s)) as [[i u]|] eqn:Hfind; simplify_eq/=.
  apply list_find_Some in Hfind as (Hi & Hu & _).
  exists u. split; [by eapply list_elem_of_lookup_2|done].
Qed.

(** When [checkpw] returns, the two failures look alike: [(False, None)] for
    a name that no user has, and for a password that does not verify. *)
Lemma verify_user_failure (s : db) (username password : string) :
  (Forall (λ u, u_username u ≠ username) (users s) →
     verify_user s username password = Ok (false, None)) ∧
  (∀ stored_hash role,
     fetch_user s username = Some (stored_hash, role) →
     checkpw password stored_hash = Returns false →
     verify_user s username password = Ok (false, None)).
Proof.
  split.
  - intros Habs. unfold verify_user. by rewrite fetch_user_absent.
  - intros stored_hash role Hf Hpw. unfold verify_user. by rewrite Hf, Hpw.
Qed.

(** C6 does not hold of the code: with a password on which [checkpw] raises,
    [verify_user] lets the exception escape when a user has the name, and
    returns [(False, None)] when none has: the caller can tell the two
    apart. *)
Theorem verify_user_distinguishes (s : db)
    (username password stored_hash role msg : string) :
  fetch_user s username = Some (stored_hash, role) →
  checkpw password stored_hash = Raises msg →
  verify_user s username password = Raise (ValueError msg) ∧
  (∀ other, fetch_user s other = None →
            verify_user s other password = Ok (false, None)).
Proof.
  intros Hf Hpw. split.
  - unfold verify_user. by rewrite Hf, Hpw.
  - intros other Hnone. unfold verify_user. by rewrite Hnone.
Qed.

(** ** Password reset *)

(** C8, as the code has it: when [hashpw] returns, [update_password] answers
    [(True, "Password updated successfully")]; it touches no table but
    [users]; a user of that name keeps its role and creation time and gets
    the new hash; every other user record is kept as it is; and when no user
    has the name the database does not change at all.  When [hashpw] raises,
    the answer is [(False, message)] and the database does not change. *)
Theorem update_password_spec (s : db) (salt username new_password : string) :
  (∀ hashed, hashpw new_password salt = Returns hashed →
     let s' := (update_password s salt username new_password).1 in
     (update_password s salt username new_password).2
       = (true, "Password updated successfully") ∧
     s' = set_users s (users s') ∧
     length (users s') = length (users s) ∧
     (∀ i u, users s !! i = Some u → u_username u = username →
        users s' !! i = Some (User username hashed (u_role u)
                                (u_created_at u))) ∧
     (∀ i u, users s !! i = Some u → u_username u ≠ username →
        users s' !! i = Some u) ∧
     (Forall (λ u, u_username u ≠ username) (users s) → s' = s)) ∧
  (∀ msg, hashpw new_password salt = Raises msg →
     update_password s salt username new_password = (s, (false, msg))).
Proof.
  unfold update_password. split.
  - intros hashed ->. simpl.
    split; [done|]. split; [done|]. split; [by rewrite length_fmap|].
    split; [|split].
    + intros i u Hi Hu. rewrite list_lookup_fmap, Hi. simpl.
      by rewrite bool_decide_true, Hu.
    + intros i u Hi Hu. rewrite list_lookup_fmap, Hi. simpl.
      by rewrite bool_decide_false.
    + intros Habs. rewrite fmap_unchanged; [apply set_users_same|].
      eapply Forall_impl; [exact Habs|]. intros u Hu. simpl in *.
      by rewrite bool_decide_false.
  - by intros msg ->.
Qed.

(** ** Initialisation and the default admin *)

Lemma users_insert_or_ignore_category (s : db) (nt : string * string) :
  users (insert_or_ignore_category s nt) = users s.
Proof. unfold insert_or_ignore_category. by case_bool_decide. Qed.

Lemma users_insert_categories (l : list (string * string)) (s : db) :
  users (foldl insert_or_ignore_category s l) = users s.
Proof.
  revert s. induction l as [|nt l IH]; intros s; simpl; [done|].
  by rewrite IH, users_insert_or_ignore_category.
Qed.

Lemma users_seed_categories (s : db) : users (seed_categories s) = users s.
Proof. apply users_insert_categories. Qed.

Lemma count_admins_users (s s' : db) :
  users s' = users s → count_admins s' = count_admins s.
Proof. unfold count_admins. by intros ->. Qed.

Lemma count_admins_app (s s' : db) (l : list user) :
  users s' = users s ++ l → (count_admins s ≤ count_admins s')%nat.
Proof.
  unfold count_admins. intros ->. rewrite filter_app, length_app. lia.
Qed.

Lemma count_admins_update_password (s : db) (salt username new_password : string) :
  count_admins (update_password s salt username new_password).1
  = count_admins s.
Proof.
  unfold update_password. destruct (hashpw new_password salt); [|done].
  unfold count_admins; simpl. induction (users s) as [|u l IH]; [done|].
  rewrite fmap_cons, !filter_cons.
  case_bool_decide; simpl; case_decide; simpl; by rewrite IH.
Qed.

Lemma insert_user_users (s s' : db) (now username hashed role : string) :
  insert_user s now username hashed role = Ok s' →
  users s' = users s ++ [User username hashed role now].
Proof.
  unfold insert_user. destruct (check_role role); simpl; [|done].
  case_bool_decide; [done|]. by intros [= <-].
Qed.

Lemma hashpw_admin123 (salt : string) :
  ∃ hashed, hashpw "admin123" salt = Returns hashed.
Proof.
  apply hashpw_returns. apply (bool_decide_unpack _). by vm_compute.
Qed.

Lemma init_database_with_admin (s : db) (now salt : string) :
  count_admins s ≠ 0%nat →
  init_database s now salt = Ok (seed_categories s).
Proof.
  intros Hadm. unfold init_database.
  rewrite bool_decide_false; [done|].
  by rewrite (count_admins_users s) by apply users_seed_categories.
Qed.

(** Without an admin, [init_database] is the INSERT of the default admin on
    the seeded database. *)
Lemma init_database_without_admin (s : db) (now salt : string) :
  count_admins s = 0%nat →
  ∃ hashed, hashpw "admin123" salt = Returns hashed ∧
            init_database s now salt
            = insert_user (seed_categories s) now "admin" hashed "admin".
Proof.
  intros Hnone. destruct (hashpw_admin123 salt) as [hashed Hh].
  exists hashed. split; [done|]. unfold init_database.
  rewrite bool_decide_true
    by (by rewrite (count_admins_users s) by apply users_seed_categories).
  by rewrite Hh.
Qed.

Lemma insert_admin_free (s1 : db) (now hashed : string) :
  Forall (λ u, u_username u ≠ "admin") (users s1) →
  insert_user s1 now "admin" hashed "admin"
  = Ok (set_users s1 (users s1 ++ [User "admin" hashed "admin" now])).
Proof.
  intros Hfree. unfold insert_user.
  assert (check_role "admin" = true) as -> by by vm_compute.
  cbn [negb]. rewrite bool_decide_false; [done|].
  by apply Forall_Exists_neg.
Qed.

Lemma insert_admin_taken (s1 : db) (now hashed : string) :
  Exists (λ u, u_username u = "admin") (users s1) →
  insert_user s1 now "admin" hashed "admin"
  = Raise (IntegrityError UniqueUsername).
Proof.
  intros Htaken. unfold insert_user.
  assert (check_role "admin" = true) as -> by by vm_compute.
  cbn [negb]. by rewrite bool_decide_true.
Qed.

(** A successful [init_database] leaves a user with the admin role. *)
Lemma init_database_has_admin (s s' : db) (now salt : string) :
  init_database s now salt = Ok s' → count_admins s' ≠ 0%nat.
Proof.
  intros Hinit. destruct (decide (count_admins s = 0%nat)) as [Hnone|Hadm].
  - destruct (init_database_without_admin s now salt Hnone)
      as (hashed & _ & Heq).
    rewrite Heq in Hinit. apply insert_user_users in Hinit.
    unfold count_admins. rewrite Hinit, filter_app, length_app.
    generalize (filter (λ u, u_role u = "admin") (users (seed_categories s))).
    intros l. simpl. lia.
  - rewrite init_database_with_admin in Hinit by done.
    pose proof (users_seed_categories s) as Hus.
    generalize dependent (seed_categories s). intros s1 Hinit Hus.
    injection Hinit as <-. by rewrite (count_admins_users s).
Qed.

Lemma run_count_admins (c : call) (s : db) :
  (count_admins s ≤ count_admins (run c s))%nat.
Proof.
  destruct c; cbn [run].
  - unfold add_transaction.
    by destruct (check_transaction _ _) as [[]|].
  - unfold update_transaction. case_bool_decide; [|done].
    by destruct (check_transaction _ _) as [[]|].
  - done.
  - done.
  - unfold add_user. destruct (hashpw password salt) as [hashed|msg]; [|done].
    destruct (insert_user _ _ _ _ _) as [s'|[c|msg]] eqn:Hr; [|done..].
    eapply count_admins_app. by eapply insert_user_users.
  - by rewrite count_admins_update_password.
  - unfold log_login. by destruct (check_status status).
Qed.

(** Once a [CashflowDatabase] object has been constructed on the file, some
    user has the admin role. *)
Lemma opened_has_admin (s : db) : opened s → count_admins s ≠ 0%nat.
Proof.
  induction 1 as [s now salt s' Hnil Hinit|s now salt s' _ IH Hinit|s c _ IH].
  - by eapply init_database_has_admin.
  - by eapply init_database_has_admin.
  - pose proof (run_count_admins c s). lia.
Qed.

(** C10, as the code has it: on a store with no admin-role user and no user
    called "admin", [init_database] inserts the user "admin" with role
    'admin' and a hash of "admin123", after which
    [verify_user "admin" "admin123"] returns [(True, 'admin')]; when a user
    without the admin role is called "admin", the INSERT fails on the primary
    key and [init_database] raises; with an admin-role user present the
    users table is left as it is; hence initialising again inserts no
    user. *)
Theorem init_database_bootstrap (s : db) (now salt : string) :
  (count_admins s = 0%nat →
   Forall (λ u, u_username u ≠ "admin") (users s) →
     ∃ s' hashed,
       hashpw "admin123" salt = Returns hashed ∧
       init_database s now salt = Ok s' ∧
       users s' = users s ++ [User "admin" hashed "admin" now] ∧
       verify_user s' "admin" "admin123" = Ok (true, Some "admin")) ∧
  (count_admins s = 0%nat →
   Exists (λ u, u_username u = "admin") (users s) →
     init_database s now salt = Raise (IntegrityError UniqueUsername)) ∧
  (count_admins s ≠ 0%nat →
     ∃ s', init_database s now salt = Ok s' ∧ users s' = users s) ∧
  (∀ s', init_database s now salt = Ok s' →
     ∀ now' salt', ∃ s'', init_database s' now' salt' = Ok s'' ∧
                          users s'' = users s').
Proof.
  split; [|split; [|split]].
  - intros Hnone Hfree.
    destruct (init_database_without_admin s now salt Hnone)
      as (hashed & Hh & Heq).
    pose proof (users_seed_categories s) as Hus.
    generalize dependent (seed_categories s). intros s1 Heq Hus.
    rewrite insert_admin_free in Heq by by rewrite Hus.
    eexists _, hashed. split; [done|]. split; [exact Heq|].
    simpl. rewrite Hus. split; [done|].
    unfold verify_user.
    rewrite (fetch_user_first (users s) (User "admin" hashed "admin" now))
      by done.
    simpl. by rewrite (checkpw_hashpw _ _ _ Hh).
  - intros Hnone Htaken.
    destruct (init_database_without_admin s now salt Hnone)
      as (hashed & _ & ->).
    apply insert_admin_taken. by rewrite users_seed_categories.
  - intros Hadm. eexists. split; [by apply init_database_with_admin|].
    apply users_seed_categories.
  - intros s' Hs' now' salt'. eexists. split.
    + apply init_database_with_admin. by eapply init_database_has_admin.
    + apply users_seed_categories.
Qed.

(** ** The table constraints are an invariant *)

Lemma Forall_filter_keep {A} (P Q : A → Prop) `{∀ x, Decision (Q x)}
    (l : list A) :
  Forall P l → Forall P (filter Q l).
Proof.
  rewrite !Forall_forall. intros Hall x [_ Hx]%list_elem_of_filter. auto.
Qed.

Lemma schema_ok_empty : schema_ok empty_db.
Proof. constructor. Qed.

Lemma transactions_add_user (s : db) (now salt username password role : string) :
  transactions (add_user s now salt username password role).1 = transactions s.
Proof.
  unfold add_user. destruct (hashpw password salt) as [hashed|msg]; [|done].
  unfold insert_user. destruct (check_role role); simpl; [|done].
  by case_bool_decide.
Qed.

Lemma transactions_update_password (s : db) (salt username new_password : string) :
  transactions (update_password s salt username new_password).1
  = transactions s.
Proof. unfold update_password. by destruct (hashpw new_password salt). Qed.

Lemma run_schema_ok (c : call) (s : db) : schema_ok s → schema_ok (run c s).
Proof.
  unfold schema_ok. intros Hok. destruct c; cbn [run].
  - unfold add_transaction.
    destruct (check_transaction type amount) as [[]|] eqn:Hc; simpl; [|done].
    apply Forall_app. split; [done|]. constructor; [|constructor].
    by apply check_transaction_inv.
  - unfold update_transaction. case_bool_decide; [|done].
    destruct (check_transaction type amount) as [[]|] eqn:Hc; simpl; [|done].
    apply Forall_fmap. eapply Forall_impl; [exact Hok|]. intros t Ht. simpl.
    case_bool_decide; [|done]. by apply check_transaction_inv.
  - simpl. by apply Forall_filter_keep.
  - simpl. by apply Forall_filter_keep.
  - by rewrite transactions_add_user.
  - by rewrite transactions_update_password.
  - unfold log_login. by destruct (check_status status).
Qed.

Lemma transactions_insert_categories (l : list (string * string)) (s : db) :
  transactions (foldl insert_or_ignore_category s l) = transactions s.
Proof.
  revert s. induction l as [|nt l IH]; intros s; simpl; [done|].
  rewrite IH. unfold insert_or_ignore_category. by case_bool_decide.
Qed.

Lemma transactions_seed_categories (s : db) :
  transactions (seed_categories s) = transactions s.
Proof. apply transactions_insert_categories. Qed.

Lemma transactions_insert_user (s s' : db) (now username hashed role : string) :
  insert_user s now username hashed role = Ok s' →
  transactions s' = transactions s ∧ transactions_seq s' = transactions_seq s.
Proof.
  unfold insert_user. destruct (check_role role); simpl; [|done].
  case_bool_decide; [done|]. by intros [= <-].
Qed.

Lemma init_database_schema_ok (s s' : db) (now salt : string) :
  init_database s now salt = Ok s' → schema_ok s → schema_ok s'.
Proof.
  unfold init_database, schema_ok. intros Hinit Hok.
  pose proof (transactions_seed_categories s) as Htx.
  generalize dependent (seed_categories s). intros s1 Hinit Htx.
  rewrite <-Htx in Hok.
  case_bool_decide; [|by simplify_eq].
  destruct (hashpw "admin123" salt) as [hashed|msg]; [|done].
  apply transactions_insert_user in Hinit as [-> _]. done.
Qed.

End identity_properties.

Lemma verify_user_distinguishes_witness :
  verify_user (H:=plain_bcrypt) ledger_db "alice" long_password
  = Raise (ValueError too_long) ∧
  verify_user (H:=plain_bcrypt) ledger_db "nouser" long_password
  = Ok (false, None).
Proof.
  destruct (verify_user_distinguishes (H:=plain_bcrypt) ledger_db "alice"
              long_password "salt1$wonderland" "user" too_long)
    as [Hraise Hother]; [by vm_compute..|].
  split; [exact Hraise|]. apply Hother. by vm_compute.
Defined.

Lemma update_password_spec_witness :
  (update_password (H:=plain_bcrypt) ledger_db "salt9" "nouser" "secret1").1
  = ledger_db ∧
  update_password (H:=plain_bcrypt) ledger_db "salt9" "alice" long_password
  = (ledger_db, (false, too_long)).
Proof.
  split.
  - apply (proj1 (update_password_spec (H:=plain_bcrypt) ledger_db "salt9"
                    "nouser" "secret1") "salt9$secret1"); [by vm_compute|].
    apply (bool_decide_unpack _). by vm_compute.
  - apply (proj2 (update_password_spec (H:=plain_bcrypt) ledger_db "salt9"
                    "alice" long_password)).
    by vm_compute.
Defined.

(** C8, as stated, fails: on a password that [hashpw] refuses, the hash of
    an existing user is not replaced, and for a name that no user has the
    answer is not [ok = True]. *)
Lemma update_password_refused :
  fetch_user ledger_db "alice" = Some ("salt1$wonderland", "user") ∧
  update_password (H:=plain_bcrypt) ledger_db "salt9" "alice" long_password
  = (ledger_db, (false, too_long)) ∧
  fetch_user ledger_db "nouser" = None ∧
  update_password (H:=plain_bcrypt) ledger_db "salt9" "nouser" long_password
  = (ledger_db, (false, too_long)).
Proof. repeat split; by vm_compute. Qed.

Lemma init_database_bootstrap_witness :
  ∃ s' hashed,
    hashpw (Bcrypt:=plain_bcrypt) "admin123" "salt0" = Returns hashed ∧
    init_database (H:=plain_bcrypt) no_admin_db "2024-01-01 08:00:00" "salt0"
    = Ok s' ∧
    users s' = users no_admin_db ++
               [User "admin" hashed "admin" "2024-01-01 08:00:00"] ∧
    verify_user (H:=plain_bcrypt) s' "admin" "admin123"
    = Ok (true, Some "admin").
Proof.
  apply (init_database_bootstrap (H:=plain_bcrypt) no_admin_db
           "2024-01-01 08:00:00" "salt0").
  - reflexivity.
  - apply (bool_decide_unpack _). by vm_compute.
Defined.

(** C10, as stated, fails: on a store whose only user is called "admin" and
    has the role 'user' there is no admin-role user, and [init_database]
    raises on the primary key of [users] and inserts nothing. *)
Lemma init_database_admin_name_taken :
  count_admins admin_name_taken_db = 0%nat ∧
  init_database (H:=plain_bcrypt) admin_name_taken_db "2024-01-01 08:00:00"
    "salt0"
  = Raise (IntegrityError UniqueUsername) ∧
  count_admins
    (commit admin_name_taken_db
       (init_database (H:=plain_bcrypt) admin_name_taken_db
          "2024-01-01 08:00:00" "salt0")) = 0%nat.
Proof. repeat split; by vm_compute. Qed.

(** ** Listing *)

Global Instance date_id_desc_total : Total date_id_desc.
Proof.
  intros x y. unfold date_id_desc.
  destruct (decide (t_date x = t_date y)) as [Heq|Hne].
  - destruct (Z.le_ge_cases (t_id x) (t_id y)); [right|left];
      (split; [by rewrite Heq|done]).
  - destruct (total String.le (t_date x) (t_date y)); [right|left];
      (split; [done|congruence]).
Qed.

Global Instance date_id_desc_trans : Transitive date_id_desc.
Proof.
  intros x y z [Hyx Hidyx] [Hzy Hidzy]. split; [by etrans|].
  intros Heq. rewrite Heq in Hyx.
  assert (t_date y = t_date z) as Hyz by by apply (anti_symm String.le).
  assert (t_date x = t_date y) as Hxy by congruence.
  specialize (Hidyx Hxy). specialize (Hidzy Hyz). lia.
Qed.

Lemma StronglySorted_lookup {A} (R : relation A) (l : list A) (i j : nat)
    (x y : A) :
  StronglySorted R l → l !! i = Some x → l !! j = Some y → (i < j)%nat →
  R x y.
Proof.
  intros Hl. revert i j. induction Hl as [|a l _ IH Hall]; intros i j Hi Hj Hlt.
  - by rewrite lookup_nil in Hi.
  - destruct j as [|j]; [lia|]. destruct i as [|i]; simpl in *.
    + injection Hi as ->. rewrite Forall_forall in Hall.
      apply Hall. by eapply list_elem_of_lookup_2.
    + apply (IH i j); [done..|lia].
Qed.

(** C9: [get_all_transactions] returns the stored transactions of that owner
    and no others, each as often as it is stored and each with its own id,
    date, type, category, amount, description and creation time; of two rows
    the earlier one has the later date, or the same date and the larger
    id. *)
Theorem get_all_transactions_spec (s : db) (username : string) :
  ∃ l, get_all_transactions s username
       = (λ t, LedgerRow (t_id t) (t_date t) (t_type t) (t_category t)
                 (t_amount t) (t_description t) (t_created_at t)) <$> l ∧
       l ≡ₚ filter (λ t, t_username t = username) (transactions s) ∧
       (∀ t, t ∈ l ↔ t ∈ transactions s ∧ t_username t = username) ∧
       StronglySorted date_id_desc l ∧
       (∀ i j r1 r2,
          get_all_transactions s username !! i = Some r1 →
          get_all_transactions s username !! j = Some r2 →
          (i < j)%nat →
          String.le (r_date r2) (r_date r1) ∧
          (r_date r1 = r_date r2 → r_id r2 ≤ r_id r1)).
Proof.
  exists (merge_sort date_id_desc (owned_by username (transactions s))).
  assert (StronglySorted date_id_desc
            (merge_sort date_id_desc (owned_by username (transactions s))))
    as Hsorted by apply (StronglySorted_merge_sort _).
  split; [done|]. split; [apply merge_sort_Permutation|].
  split; [|split; [done|]].
  - intros t. rewrite merge_sort_Permutation. unfold owned_by.
    rewrite list_elem_of_filter. tauto.
  - intros i j r1 r2 Hi Hj Hlt. unfold get_all_transactions in Hi, Hj.
    rewrite list_lookup_fmap in Hi, Hj.
    destruct (merge_sort _ _ !! i) as [x|] eqn:Hx; [|done].
    destruct (merge_sort _ _ !! j) as [y|] eqn:Hy; [|done].
    simpl in Hi, Hj. injection Hi as <-. injection Hj as <-.
    exact (StronglySorted_lookup _ _ i j x y Hsorted Hx Hy Hlt).
Qed.

(** ** Running sums *)

Lemma length_accumulate (acc : float64) (l : list float64) :
  length (accumulate acc l) = length l.
Proof. revert acc. induction l as [|x l IH]; intros acc; simpl; [done|]. by rewrite IH. Qed.

Lemma length_np_cumsum (l : list float64) : length (np_cumsum l) = length l.
Proof. destruct l as [|x l]; simpl; [done|]. by rewrite length_accumulate. Qed.

Lemma length_cumsum (l : list float64) : length (cumsum l) = length l.
Proof.
  unfold cumsum. rewrite length_zip_with, length_np_cumsum, length_fmap. lia.
Qed.

Lemma lookup_accumulate_S (acc : float64) (l : list float64) (i : nat)
    (b x : float64) :
  accumulate acc l !! i = Some b → l !! S i = Some x →
  accumulate acc l !! S i = Some (fadd b x).
Proof.
  revert acc i. induction l as [|y l IH]; intros acc i Hb Hx; [done|].
  destruct i as [|i]; simpl in *.
  - injection Hb as <-. destruct l as [|z l]; simplify_eq/=. done.
  - by apply IH.
Qed.

(** [numpy.cumsum] adds each value to the sum before it. *)
Lemma lookup_np_cumsum_S (l : list float64) (i : nat) (b x : float64) :
  np_cumsum l !! i = Some b → l !! S i = Some x →
  np_cumsum l !! S i = Some (fadd b x).
Proof.
  destruct l as [|y l]; [done|]. destruct i as [|i]; simpl.
  - intros [= <-] Hx. destruct l as [|z l]; simplify_eq/=. done.
  - apply lookup_accumulate_S.
Qed.

(** Without NaN, [Series.cumsum] is [numpy.cumsum]. *)
Lemma cumsum_no_nan (l : list float64) :
  Forall (λ x, is_nan x = false) l → cumsum l = np_cumsum l.
Proof.
  intros Hl. unfold cumsum.
  rewrite (fmap_unchanged (λ x, if is_nan x then fzero else x) l)
    by (eapply Forall_impl; [exact Hl|]; by intros x ->).
  pose proof (length_np_cumsum l) as Hlen.
  revert Hlen. generalize (np_cumsum l). intros k.
  revert k. induction Hl as [|x l Hx _ IH]; intros [|c k] Hlen;
    simplify_eq/=; [done|].
  by rewrite Hx, IH.
Qed.

Lemma StronglySorted_strict (l : list string) :
  StronglySorted String.le l → NoDup l → StronglySorted date_lt l.
Proof.
  induction 1 as [|d l _ IH Hall]; intros Hnd; [constructor|].
  apply NoDup_cons in Hnd as [Hd Hnd]. constructor; [by apply IH|].
  rewrite Forall_forall in *. intros d' Hd'. split; [by apply Hall|].
  by intros ->.
Qed.

Lemma balance_dates_elem (s : db) (username d : string) :
  d ∈ balance_dates s username ↔
  ∃ t, t ∈ transactions s ∧ t_username t = username ∧ t_date t = d.
Proof.
  unfold balance_dates, owned_by.
  rewrite merge_sort_Permutation, elem_of_remove_dups, list_elem_of_fmap.
  split.
  - intros (t & -> & [Hu Ht]%list_elem_of_filter). by exists t.
  - intros (t & Ht & Hu & <-). exists t. split; [done|].
    by apply list_elem_of_filter.
Qed.

Lemma balance_dates_sorted (s : db) (username : string) :
  StronglySorted date_lt (balance_dates s username).
Proof.
  apply StronglySorted_strict.
  - apply (StronglySorted_merge_sort _).
  - unfold balance_dates. rewrite merge_sort_Permutation.
    apply NoDup_remove_dups.
Qed.

Lemma balance_dates_nil (s : db) (username : string) :
  balance_dates s username = [] ↔ owned_by username (transactions s) = [].
Proof.
  split.
  - intros Hnil.
    destruct (owned_by username (transactions s)) as [|t l] eqn:Hown; [done|].
    assert (t_date t ∈ balance_dates s username) as Hin.
    { apply balance_dates_elem.
      assert (t ∈ owned_by username (transactions s)) as Ht
        by (rewrite Hown; left).
      apply list_elem_of_filter in Ht as [? ?]. by exists t. }
    rewrite Hnil in Hin. by apply elem_of_nil in Hin.
  - intros Hempty. unfold balance_dates. by rewrite Hempty.
Qed.

(** ** Cumulative balance *)

Section cumulative_balance.
Context `{Numerics}.

Lemma daily_changes_columns (s : db) (username : string) :
  (λ r, (b_date r, b_daily_change r)) <$> get_cumulative_balance s username
  = daily_changes s username.
Proof.
  unfold get_cumulative_balance. apply fmap_zip_with_l.
  - by intros [d x] b.
  - by rewrite length_cumsum, length_fmap.
Qed.

Lemma balance_dates_column (s : db) (username : string) :
  b_date <$> get_cumulative_balance s username = balance_dates s username.
Proof.
  change b_date with (fst ∘ (λ r, (b_date r, b_daily_change r))).
  rewrite list_fmap_compose, daily_changes_columns.
  unfold daily_changes. rewrite <-list_fmap_compose. apply list_fmap_id.
Qed.

Lemma daily_change_column (s : db) (username : string) :
  b_daily_change <$> get_cumulative_balance s username
  = daily_change s username <$> balance_dates s username.
Proof.
  change b_daily_change with (snd ∘ (λ r, (b_date r, b_daily_change r))).
  rewrite list_fmap_compose, daily_changes_columns.
  unfold daily_changes. by rewrite <-list_fmap_compose.
Qed.

Lemma cumulative_balance_column (s : db) (username : string) :
  b_cumulative_balance <$> get_cumulative_balance s username
  = cumsum (b_daily_change <$> get_cumulative_balance s username).
Proof.
  rewrite daily_change_column.
  unfold get_cumulative_balance, daily_changes.
  rewrite <-list_fmap_compose. apply fmap_zip_with_r.
  - done.
  - by rewrite length_cumsum, !length_fmap.
Qed.


End cumulative_balance.



(** ** Dates: [strftime] against the calendar fields *)

Lemma int_of_str_str (n : Z) : int_of_str (str n) = Some n.
Proof.
  unfold int_of_str, str. rewrite NilZero.isi.
  - simpl. by rewrite DecimalZ.of_to.
  - destruct n; simpl; [done| |done]. intros [= Hnil].
    by apply DecimalPos.Unsigned.to_uint_nonnil in Hnil.
  - destruct n; simpl; [done|done|]. intros [= Hnil].
    by apply DecimalPos.Unsigned.to_uint_nonnil in Hnil.
Qed.

Global Instance str_inj : Inj (=) (=) str.
Proof.
  intros n1 n2 Heq. apply (inj Some).
  by rewrite <-!int_of_str_str, Heq.
Qed.

Lemma of_lu_lt (d : Decimal.uint) :
  (DecimalPos.Unsigned.of_lu d < 10 ^ N.of_nat (Decimal.nb_digits d))%N.
Proof.
  induction d; cbn [DecimalPos.Unsigned.of_lu Decimal.nb_digits];
    rewrite ?Nat2N.inj_succ, ?N.pow_succ_r'; simpl N.of_nat; lia.
Qed.

Lemma length_string_of_uint (d : Decimal.uint) :
  String.length (NilEmpty.string_of_uint d) = Decimal.nb_digits d.
Proof. induction d; simpl; congruence. Qed.

(** A number from 1000 on prints with at least four digits. *)
Lemma length_str_thousand (y : Z) :
  1000 ≤ y → (4 ≤ String.length (str y))%nat.
Proof.
  intros Hy. destruct y as [|p|p]; [lia| |lia].
  unfold str; simpl.
  pose proof (DecimalPos.Unsigned.to_uint_nonnil p) as Hnil.
  pose proof (of_lu_lt (Decimal.rev (Pos.to_uint p))) as Hlt.
  rewrite <-DecimalPos.Unsigned.of_uint_alt, DecimalPos.Unsigned.of_to in Hlt.
  rewrite DecimalFacts.nb_digits_rev in Hlt.
  replace (NilZero.string_of_uint (Pos.to_uint p))
    with (NilEmpty.string_of_uint (Pos.to_uint p))
    by by destruct (Pos.to_uint p).
  rewrite length_string_of_uint.
  destruct (Decimal.nb_digits (Pos.to_uint p)) as [|[|[|[|n]]]];
    [simpl in Hlt; lia..|lia].
Qed.

Lemma zero_pad_four_digits (y : Z) : 1000 ≤ y → zero_pad 4 y = str y.
Proof.
  intros Hy. unfold zero_pad.
  by replace (4 - String.length (str y))%nat with 0%nat
    by (pose proof (length_str_thousand y Hy); lia).
Qed.

Lemma zero_pad_year (y year : Z) :
  1000 ≤ y → zero_pad 4 y = str year ↔ y = year.
Proof.
  intros Hy. rewrite zero_pad_four_digits by done.
  split; [apply (inj str)|by intros ->].
Qed.

Lemma zero_pad_month (m month : Z) :
  1 ≤ m ≤ 12 → zero_pad 2 m = format_02d month ↔ m = month.
Proof.
  intros Hm. split.
  - intros Heq.
    assert (int_of_str (format_02d month) = Some m) as Hread.
    { rewrite <-Heq.
      assert (m ∈ seqZ 1 12) as Hin by (apply elem_of_seqZ; lia).
      revert Hin. clear. revert m. apply Forall_forall.
      apply (bool_decide_unpack _). by vm_compute. }
    clear Heq. unfold format_02d in Hread. case_bool_decide.
    { rewrite int_of_str_str in Hread. congruence. }
    unfold zero_pad in Hread. pose proof (int_of_str_str month) as Hstr.
    destruct (str month) as [|c1 [|c2 rest]];
      cbv [zeros String.length Nat.sub String.append] in Hread;
      [done| |congruence].
    revert Hread Hstr.
    unfold int_of_str, NilZero.int_of_string, NilZero.uint_of_string.
    cbn [NilEmpty.uint_of_string].
    destruct (Ascii.eqb c1 _); [done|].
    destruct (uint_of_char c1 (Some Decimal.Nil)) as [u|]; simpl; [|done].
    change (Z.of_uint (Decimal.D0 u)) with (Z.of_uint u). congruence.
  - intros <-. unfold format_02d. rewrite bool_decide_false; [done|lia].
Qed.

Lemma parse_date_month (d : string) (y m dd : Z) :
  parse_date d = Some (y, m, dd) → 1 ≤ m ≤ 12.
Proof.
  unfold parse_date. repeat (case_match; try done). intros Hb.
  repeat (apply bind_Some in Hb as (? & _ & Hb)).
  case_bool_decide; simplify_eq. tauto.
Qed.

Lemma in_month_sql_iff (username : string) (year month : Z) (t : transaction) :
  supported_date (t_date t) →
  in_month_sql username year month t ↔ in_month_of username year month t.
Proof.
  intros (y & m & dd & Hparse & Hy).
  pose proof (parse_date_month _ _ _ _ Hparse) as Hm.
  unfold in_month_sql, in_month_of, in_month, strftime_Y, strftime_m.
  rewrite Hparse; simpl. split.
  - intros (Hu & [= HY] & [= HM]).
    apply zero_pad_year in HY; [|done]. apply zero_pad_month in HM; [|done].
    split; [done|]. exists dd. congruence.
  - intros (Hu & dd' & [= <- <- <-]). split; [done|]. split; f_equal.
    + by apply zero_pad_year.
    + by apply zero_pad_month.
Qed.

(** ** Monthly summary *)

Lemma filter_ext_elem {A} (P Q : A → Prop) `{∀ x, Decision (P x)}
    `{∀ x, Decision (Q x)} (l : list A) :
  Forall (λ x, P x ↔ Q x) l → filter P l = filter Q l.
Proof.
  induction 1 as [|x l Hx _ IH]; [done|].
  rewrite !filter_cons, IH. destruct (decide (P x)), (decide (Q x)); tauto.
Qed.

Lemma filter_fmap {A B} (f : A → B) (P : B → Prop) `{∀ y, Decision (P y)}
    (l : list A) :
  filter P (f <$> l) = f <$> filter (P ∘ f) l.
Proof.
  induction l as [|x l IH]; [done|].
  rewrite fmap_cons, !filter_cons, IH. simpl. by destruct (decide (P (f x))).
Qed.

(** The rows the query of [get_monthly_summary] selects. *)
Lemma monthly_rows (s : db) (username : string) (year month : Z) :
  Forall (λ t, t_username t = username → supported_date (t_date t))
    (transactions s) →
  filter (in_month_sql username year month) (transactions s)
  = filter (in_month_of username year month) (transactions s).
Proof.
  intros Hdates. apply filter_ext_elem.
  eapply Forall_impl; [exact Hdates|]. intros t Ht; simpl in *.
  destruct (decide (t_username t = username)) as [Hu|Hu].
  - by apply in_month_sql_iff, Ht.
  - split; by intros [? _].
Qed.

(** The listing filtered to the month holds the owner's transactions of that
    month. *)
Lemma month_rows_Permutation (s : db) (username : string) (year month : Z) :
  month_rows s username year month
  ≡ₚ ledger_columns
       <$> filter (in_month_of username year month) (transactions s).
Proof.
  unfold month_rows, get_all_transactions. rewrite filter_fmap.
  apply fmap_Permutation. rewrite merge_sort_Permutation. unfold owned_by.
  rewrite list_filter_filter. apply eq_subrelation; [apply _|].
  apply list_filter_iff. intros t. unfold in_month_of; simpl. tauto.
Qed.

Section monthly_summary.
Context `{Numerics}.

Lemma get_monthly_summary_keys (s : db) (username : string) (year month : Z) :
  summary_key <$> get_monthly_summary s username year month
  = remove_dups
      (group_key <$> filter (in_month_sql username year month) (transactions s)).
Proof.
  unfold get_monthly_summary. rewrite <-list_fmap_compose.
  rewrite <-(list_fmap_id (remove_dups _)) at 2.
  apply Forall_fmap_ext_1, Forall_forall. by intros [c k] _.
Qed.


End monthly_summary.



(** ** Dates: the order of the text is the order of the calendar *)

Lemma digit_value_spec (c : ascii) (v : Z) :
  digit_value c = Some v → Z.of_N (N_of_ascii c) = v + 48 ∧ 0 ≤ v ≤ 9.
Proof.
  unfold digit_value. case_bool_decide; [|done]. intros [= <-]. lia.
Qed.

Lemma ascii_compare_digits (a b : ascii) (va vb : Z) :
  digit_value a = Some va → digit_value b = Some vb →
  Ascii.compare a b = (va ?= vb).
Proof.
  intros [Ha _]%digit_value_spec [Hb _]%digit_value_spec.
  unfold Ascii.compare. rewrite <-N2Z.inj_compare, Ha, Hb.
  rewrite !(Z.add_comm _ 48). apply Z.add_compare_mono_l.
Qed.

Ltac parse_date_inv H :=
  unfold parse_date in H;
  repeat (case_match; try done);
  repeat (apply bind_Some in H as (? & ? & H));
  case_bool_decide; [|done];
  simplify_eq.

(** On calendar dates written ['YYYY-MM-DD'], the bytewise order of SQLite is
    the chronological order. *)
Lemma date_text_order (d1 d2 : string) (y1 m1 dd1 y2 m2 dd2 : Z) :
  parse_date d1 = Some (y1, m1, dd1) →
  parse_date d2 = Some (y2, m2, dd2) →
  String.le d1 d2 ↔
  y1 < y2 ∨ (y1 = y2 ∧ (m1 < m2 ∨ (m1 = m2 ∧ dd1 ≤ dd2))).
Proof.
  intros H1 H2. parse_date_inv H1. parse_date_inv H2.
  repeat match goal with
         | H : _ ∧ _ |- _ => destruct H
         end.
  subst. unfold String.le, String.leb. cbn [String.compare].
  repeat match goal with
         | Ha : digit_value ?a = Some ?va, Hb : digit_value ?b = Some ?vb
           |- context [Ascii.compare ?a ?b] =>
             rewrite (ascii_compare_digits a b va vb Ha Hb)
         end.
  change (Ascii.compare "-" "-") with Eq. cbv iota.
  repeat match goal with
         | H : digit_value _ = Some _ |- _ =>
             apply digit_value_spec in H as [_ ?]
         end.
  repeat match goal with
         | |- context [?a ?= ?b] => destruct (Z.compare_spec a b)
         end; simpl; split; (done || lia || (intros; exfalso; lia) || tauto).
Qed.

(** * Further properties of the database layer *)

(** ** Bulk delete *)

Lemma owned_by_after_bulk_delete (s : db) (username v : string) :
  owned_by v (transactions (commit s (delete_all_user_transactions s username)))
  = if decide (v = username) then [] else owned_by v (transactions s).
Proof.
  unfold owned_by; simpl. rewrite list_filter_filter. case_decide as Hv.
  - apply filter_none, Forall_forall. intros t _ [? ?]. congruence.
  - apply list_filter_iff. intros t. split; [by intros [? _]|].
    intros Ht. split; [done|congruence].
Qed.

Section store_and_aggregates.
Context `{Numerics}.

(** X2: after [delete_all_user_transactions] the listing, the cumulative
    balance and every monthly summary of that user are empty, the listing of
    every other user is what it was, and the call never raises. *)
Theorem delete_all_user_transactions_spec (s : db) (username : string) :
  ∃ s', delete_all_user_transactions s username = Ok s' ∧
        get_all_transactions s' username = [] ∧
        get_cumulative_balance s' username = [] ∧
        (∀ year month, get_monthly_summary s' username year month = []) ∧
        (∀ v, v ≠ username →
              get_all_transactions s' v = get_all_transactions s v ∧
              get_cumulative_balance s' v = get_cumulative_balance s v).
Proof.
  exists (commit s (delete_all_user_transactions s username)).
  split; [reflexivity|].
  pose proof (owned_by_after_bulk_delete s username) as Hown.
  split; [|split; [|split]].
  - unfold get_all_transactions. rewrite (Hown username).
    by rewrite decide_True.
  - unfold get_cumulative_balance, daily_changes, balance_dates, daily_change.
    rewrite (Hown username). by rewrite decide_True.
  - intros year month. unfold get_monthly_summary; simpl.
    rewrite list_filter_filter.
    rewrite (filter_none _ (transactions s)); [done|].
    apply Forall_forall. intros t _ [[? _] ?]. done.
  - intros v Hv. unfold get_all_transactions, get_cumulative_balance,
      daily_changes, balance_dates, daily_change.
    rewrite (Hown v). by rewrite decide_False.
Qed.

(** ** Insert, then read *)

(** X3: a valid [add_transaction] puts exactly one more row in the listing
    of its owner, the new one, with the next id and the values passed; the
    listing, the cumulative balance and the monthly summaries of every other
    user are what they were. *)
Theorem add_transaction_listed (s : db) (now username date type category : string)
    (amount : float64) (description : option string) :
  flt fzero amount → type = "Income" ∨ type = "Expense" →
  ∃ s',
    add_transaction s now username date type category amount description
      = Ok s' ∧
    get_all_transactions s' username
      ≡ₚ LedgerRow (transactions_seq s + 1) date type category amount
           description now
         :: get_all_transactions s username ∧
    (∀ v, v ≠ username →
          get_all_transactions s' v = get_all_transactions s v ∧
          get_cumulative_balance s' v = get_cumulative_balance s v ∧
          (∀ year month, get_monthly_summary s' v year month
                         = get_monthly_summary s v year month)).
Proof.
  intros Hpos Hty.
  assert (add_transaction s now username date type category amount description
          = Ok (set_transactions s
                  (transactions s ++
                     [Transaction (transactions_seq s + 1) username date type
                        category amount description now])
                  (transactions_seq s + 1))) as Hadd.
  { unfold add_transaction. by rewrite (check_transaction_ok type amount). }
  eexists. split; [exact Hadd|]. split.
  - unfold get_all_transactions, owned_by; simpl.
    rewrite !merge_sort_Permutation, filter_app, fmap_app.
    rewrite filter_cons_True by done. simpl.
    by rewrite <-Permutation_cons_append.
  - intros v Hv.
    assert (owned_by v (transactions s ++
                          [Transaction (transactions_seq s + 1) username date
                             type category amount description now])
            = owned_by v (transactions s)) as Hown.
    { unfold owned_by.
      rewrite filter_app, filter_cons_False by (simpl; congruence).
      by rewrite filter_nil, app_nil_r. }
    split; [|split].
    + unfold get_all_transactions; simpl. by rewrite Hown.
    + unfold get_cumulative_balance, daily_changes, balance_dates,
        daily_change; simpl. by rewrite Hown.
    + intros year month. unfold get_monthly_summary; simpl.
      rewrite filter_app, filter_cons_False
        by (intros [? _]; simpl in *; congruence).
      by rewrite filter_nil, app_nil_r.
Qed.

End store_and_aggregates.

Lemma add_transaction_listed_witness :
  ∃ s',
    add_transaction ledger_db "2024-03-01 09:00:00" "bob" "2024-03-01"
      "Expense" "Rent" (cents 300) None = Ok s' ∧
    get_all_transactions s' "bob"
      ≡ₚ LedgerRow (transactions_seq ledger_db + 1) "2024-03-01" "Expense"
           "Rent" (cents 300) None "2024-03-01 09:00:00"
         :: get_all_transactions ledger_db "bob".
Proof.
  destruct (add_transaction_listed (H:=sequential_numerics) ledger_db
              "2024-03-01 09:00:00" "bob" "2024-03-01" "Expense" "Rent"
              (cents 300) None) as (s' & Hadd & Hlist & _);
    [by vm_compute|by right|].
  by exists s'.
Defined.

(** ** Update in place *)

(** X4: [update_transaction] on a stored id with values that pass the column
    checks rewrites the date, type, category, amount and description of the
    rows with that id and nothing else: every row keeps its position, id,
    owner and creation time, and the other rows are untouched; with values
    that fail a check it raises and the database is left as it was. *)
Theorem update_transaction_present (s : db) (transaction_id : Z)
    (date type category : string) (amount : float64) (description : option string) :
  Exists (λ t, t_id t = transaction_id) (transactions s) →
  (flt fzero amount → type = "Income" ∨ type = "Expense" →
   ∃ s', update_transaction s transaction_id date type category amount
           description = Ok s' ∧
         length (transactions s') = length (transactions s) ∧
         (∀ i t, transactions s !! i = Some t →
            transactions s' !! i
            = Some (if bool_decide (t_id t = transaction_id)
                    then Transaction (t_id t) (t_username t) date type category
                           amount description (t_created_at t)
                    else t)) ∧
         users s' = users s ∧ transactions_seq s' = transactions_seq s) ∧
  (fle amount fzero ∨ (type ≠ "Income" ∧ type ≠ "Expense") →
   ∃ c, update_transaction s transaction_id date type category amount
          description = Raise (IntegrityError c)).
Proof.
  intros Hex. unfold update_transaction. rewrite bool_decide_true by done.
  split.
  - intros Hpos Hty. rewrite (check_transaction_ok type amount Hty Hpos); simpl.
    eexists. split; [reflexivity|]. simpl.
    split; [by rewrite length_fmap|]. split; [|done].
    intros i t Hi. by rewrite list_lookup_fmap, Hi.
  - intros Hbad. destruct (check_transaction_raise type amount Hbad) as [c ->].
    by exists c.
Qed.

Lemma update_transaction_present_witness :
  ∃ s', update_transaction ledger_db 2 "2024-01-06" "Expense" "Utilities"
          (cents 4500) None = Ok s' ∧
        length (transactions s') = length (transactions ledger_db).
Proof.
  destruct (update_transaction_present ledger_db 2 "2024-01-06" "Expense"
              "Utilities" (cents 4500) None) as [Hok _].
  { apply (bool_decide_unpack _). by vm_compute. }
  destruct Hok as (s' & Hs' & Hlen & _); [by vm_compute|by right|].
  exists s'. by split.
Defined.

(** ** Listings under unique ids *)

Lemma NoDup_fmap_same {A B} (f : A → B) (l : list A) (x y : A) :
  NoDup (f <$> l) → x ∈ l → y ∈ l → f x = f y → x = y.
Proof.
  induction l as [|a l IH]; [by intros _ ?%elem_of_nil|].
  rewrite fmap_cons, NoDup_cons. intros [Ha Hnd] Hx Hy Hf.
  apply elem_of_cons in Hx as [->|Hx], Hy as [->|Hy]; [done| | |by apply IH].
  - destruct Ha. rewrite Hf. by apply list_elem_of_fmap_2.
  - destruct Ha. rewrite <-Hf. by apply list_elem_of_fmap_2.
Qed.

Lemma StronglySorted_filter {A} (R : relation A) (P : A → Prop)
    `{∀ x, Decision (P x)} (l : list A) :
  StronglySorted R l → StronglySorted R (filter P l).
Proof.
  induction 1 as [|x l _ IH Hall]; [constructor|].
  rewrite filter_cons. case_decide; [|done].
  constructor; [done|]. by apply Forall_filter_keep.
Qed.

Lemma date_id_desc_same (x y : transaction) :
  date_id_desc x y → date_id_desc y x → t_id x = t_id y.
Proof.
  intros [Hyx Hidyx] [Hxy Hidxy].
  assert (t_date x = t_date y) as Heq by by apply (anti_symm String.le).
  specialize (Hidyx Heq). specialize (Hidxy (eq_sym Heq)). lia.
Qed.

(** X5: when the stored ids are distinct, deleting an id takes exactly the
    rows with that id out of the owner's listing and leaves the rest in the
    order they had. *)
Theorem delete_transaction_listing (s : db) (username : string)
    (transaction_id : Z) :
  NoDup (t_id <$> transactions s) →
  get_all_transactions (commit s (delete_transaction s transaction_id)) username
  = filter (λ r, r_id r ≠ transaction_id) (get_all_transactions s username).
Proof.
  intros Hnd. unfold get_all_transactions. rewrite filter_fmap. f_equal.
  simpl. apply (StronglySorted_unique_strong date_id_desc).
  - intros x1 x2 Hx1 Hx2 H12 H21.
    rewrite merge_sort_Permutation in Hx1.
    apply list_elem_of_filter in Hx1 as [_ [_ Hx1]%list_elem_of_filter].
    apply list_elem_of_filter in Hx2 as [_ Hx2].
    rewrite merge_sort_Permutation in Hx2.
    apply list_elem_of_filter in Hx2 as [_ Hx2].
    apply (NoDup_fmap_same t_id (transactions s)); [done..|].
    by apply date_id_desc_same.
  - apply (StronglySorted_merge_sort _).
  - apply StronglySorted_filter, (StronglySorted_merge_sort _).
  - rewrite !merge_sort_Permutation. unfold owned_by.
    rewrite !list_filter_filter. apply eq_subrelation; [apply _|].
    apply list_filter_iff. intros t. simpl. tauto.
Qed.

Lemma delete_transaction_listing_witness :
  get_all_transactions (commit ledger_db (delete_transaction ledger_db 2)) "alice"
  = filter (λ r, r_id r ≠ 2) (get_all_transactions ledger_db "alice").
Proof.
  apply (delete_transaction_listing ledger_db "alice" 2).
  apply (bool_decide_unpack _). by vm_compute.
Defined.

(** ** The ledger sorted oldest first *)

Global Instance date_id_asc_total : Total date_id_asc.
Proof.
  intros x y. unfold date_id_asc.
  destruct (decide (r_date x = r_date y)) as [Heq|Hne].
  - destruct (Z.le_ge_cases (r_id x) (r_id y)); [left|right];
      (split; [by rewrite Heq|done]).
  - destruct (total String.le (r_date x) (r_date y)); [left|right];
      (split; [done|congruence]).
Qed.

Global Instance date_id_asc_trans : Transitive date_id_asc.
Proof.
  intros x y z [Hxy Hidxy] [Hyz Hidyz]. split; [by etrans|].
  intros Heq. rewrite <-Heq in Hyz.
  assert (t1 : r_date x = r_date y) by by apply (anti_symm String.le).
  assert (r_date y = r_date z) as t2 by congruence.
  specialize (Hidxy t1). specialize (Hidyz t2). lia.
Qed.

(** X6: when the stored ids are distinct, the ledger sorted "Oldest First"
    is the listing of [get_all_transactions] read backwards. *)
Theorem oldest_first_reverse (s : db) (username : string) :
  NoDup (t_id <$> transactions s) →
  oldest_first s username = reverse (get_all_transactions s username).
Proof.
  intros Hnd. unfold oldest_first.
  apply (Sorted_unique_strong date_id_asc).
  - intros r1 r2 Hr1 Hr2 [H12 Hid12] [H21 Hid21].
    rewrite merge_sort_Permutation in Hr1. unfold get_all_transactions in Hr1.
    assert (r_date r1 = r_date r2) as Hd by by apply (anti_symm String.le).
    assert (r_id r1 = r_id r2) as Hid
      by (specialize (Hid12 Hd); specialize (Hid21 (eq_sym Hd)); lia).
    clear H12 H21 Hid12 Hid21 Hd.
    assert (∀ r, r ∈ get_all_transactions s username →
                 ∃ t, r = ledger_columns t ∧ t ∈ transactions s) as Hrow.
    { intros r (t & -> & Ht)%list_elem_of_fmap.
      rewrite merge_sort_Permutation in Ht.
      apply list_elem_of_filter in Ht as [_ Ht]. by exists t. }
    assert (r2 ∈ get_all_transactions s username) as Hr2'
      by by rewrite elem_of_reverse in Hr2.
    destruct (Hrow r1 Hr1) as (t1 & -> & Ht1).
    destruct (Hrow r2 Hr2') as (t2 & -> & Ht2).
    f_equal. by apply (NoDup_fmap_same t_id (transactions s)).
  - apply (Sorted_merge_sort _).
  - unfold get_all_transactions. rewrite <-fmap_reverse.
    apply (Sorted_fmap _ (flip date_id_desc)).
    + intros x y [Hle Hid]. split; [done|]. intros Heq. simpl in *.
      by apply Hid.
    + apply Sorted_reverse, (Sorted_merge_sort _).
  - by rewrite merge_sort_Permutation, reverse_Permutation.
Qed.

Lemma oldest_first_reverse_witness :
  oldest_first ledger_db "alice"
  = reverse (get_all_transactions ledger_db "alice").
Proof.
  apply (oldest_first_reverse ledger_db "alice").
  apply (bool_decide_unpack _). by vm_compute.
Defined.

(** ** Invariants of the tables *)

Section invariants.
Context `{Bcrypt}.

Lemma NoDup_fmap_filter {A B} (f : A → B) (P : A → Prop)
    `{∀ x, Decision (P x)} (l : list A) :
  NoDup (f <$> l) → NoDup (f <$> filter P l).
Proof.
  induction l as [|x l IH]; [done|].
  rewrite fmap_cons, NoDup_cons, filter_cons. intros [Hx Hnd].
  case_decide; [|by apply IH]. rewrite fmap_cons, NoDup_cons.
  split; [|by apply IH]. intros (y & Hxy & Hy)%list_elem_of_fmap.
  apply list_elem_of_filter in Hy as [_ Hy]. apply Hx. rewrite Hxy.
  by apply list_elem_of_fmap_2.
Qed.

Lemma transactions_after_seed (s : db) :
  transactions (seed_categories s) = transactions s ∧
  transactions_seq (seed_categories s) = transactions_seq s.
Proof.
  unfold seed_categories. generalize default_categories. intros l. revert s.
  induction l as [|nt l IH]; intros s; simpl; [done|].
  destruct (IH (insert_or_ignore_category s nt)) as [-> ->].
  unfold insert_or_ignore_category. by case_bool_decide.
Qed.

Lemma init_database_cases (s : db) (now salt : string) (s' : db) :
  init_database s now salt = Ok s' →
  s' = seed_categories s ∨
  ∃ hashed, hashpw "admin123" salt = Returns hashed ∧
            insert_user (seed_categories s) now "admin" hashed "admin" = Ok s'.
Proof.
  unfold init_database. generalize (seed_categories s). intros s1.
  case_bool_decide; [|intros [= <-]; by left].
  destruct (hashpw "admin123" salt) as [hashed|msg]; [|done].
  intros Hins. right. by exists hashed.
Qed.

Lemma transactions_init_database (s s' : db) (now salt : string) :
  init_database s now salt = Ok s' →
  transactions s' = transactions s ∧ transactions_seq s' = transactions_seq s.
Proof.
  intros Hinit. destruct (transactions_after_seed s) as [Htx Hseq].
  destruct (init_database_cases s now salt s' Hinit)
    as [->|(hashed & _ & Hins)]; [done|].
  apply transactions_insert_user in Hins as [-> ->]. done.
Qed.

Lemma store_add_user (s : db) (now salt username password role : string) :
  transactions (add_user s now salt username password role).1 = transactions s ∧
  transactions_seq (add_user s now salt username password role).1
  = transactions_seq s.
Proof.
  unfold add_user. destruct (hashpw password salt) as [hashed|msg]; [|done].
  destruct (insert_user _ _ _ _ _) as [s'|[c|msg]] eqn:Hins; [|done..].
  by apply transactions_insert_user in Hins.
Qed.

Lemma store_update_password (s : db) (salt username new_password : string) :
  transactions (update_password s salt username new_password).1
  = transactions s ∧
  transactions_seq (update_password s salt username new_password).1
  = transactions_seq s.
Proof. unfold update_password. by destruct (hashpw new_password salt). Qed.

(** X7: the transaction ids stay distinct and below the AUTOINCREMENT
    counter through every method and through [init_database], and a
    successful [add_transaction] gives the new row an id larger than every
    id stored so far, so an id is never reused, not even after a delete. *)
Theorem transaction_ids_invariant (s : db) :
  ids_ok s →
  (∀ c, ids_ok (run c s)) ∧
  (∀ now salt s', init_database s now salt = Ok s' → ids_ok s') ∧
  (∀ c now username date type category amount description s',
     add_transaction (run c s) now username date type category amount
       description = Ok s' →
     ∃ t, transactions s' = transactions (run c s) ++ [t] ∧
          Forall (λ t', t_id t' < t_id t) (transactions s)).
Proof.
  intros [Hb Hnd].
  assert (∀ c, ids_ok (run c s) ∧
               transactions_seq s ≤ transactions_seq (run c s)) as Hrun.
  { intros c. unfold ids_ok, ids_bounded in *. destruct c; cbn [run].
    - unfold add_transaction.
      destruct (check_transaction type amount) as [[]|]; simpl;
        [|by repeat split].
      split; [|lia]. split.
      + apply Forall_app. split.
        * eapply Forall_impl; [exact Hb|]. intros t Ht; simpl in *. lia.
        * constructor; [simpl; lia|constructor].
      + rewrite fmap_app. apply NoDup_app. split; [done|].
        split; [|apply NoDup_singleton].
        intros i (t & -> & Ht)%list_elem_of_fmap [= Hi]%list_elem_of_singleton.
        rewrite Forall_forall in Hb. specialize (Hb t Ht). simpl in *. lia.
    - unfold update_transaction. case_bool_decide; [|by repeat split].
      destruct (check_transaction type amount) as [[]|]; simpl;
        [|by repeat split].
      split; [|lia]. split.
      + apply Forall_fmap. eapply Forall_impl; [exact Hb|].
        intros t Ht; simpl. by case_bool_decide.
      + rewrite <-list_fmap_compose.
        rewrite (Forall_fmap_ext_1 _ t_id); [done|].
        apply Forall_forall. intros t _; simpl. by case_bool_decide.
    - simpl. split; [|lia]. split.
      + by apply Forall_filter_keep.
      + by apply NoDup_fmap_filter.
    - simpl. split; [|lia]. split.
      + by apply Forall_filter_keep.
      + by apply NoDup_fmap_filter.
    - destruct (store_add_user s now salt username password role) as [-> ->].
      by repeat split.
    - destruct (store_update_password s salt username new_password)
        as [-> ->].
      by repeat split.
    - unfold log_login. destruct (check_status status); by repeat split. }
  split; [intros c; apply Hrun|]. split.
  - intros now salt s' [Htx Hseq]%transactions_init_database.
    unfold ids_ok, ids_bounded. by rewrite Htx, Hseq.
  - intros c now username date type category amount description s' Hadd.
    destruct (Hrun c) as [_ Hseq].
    unfold add_transaction in Hadd.
    destruct (check_transaction type amount) as [[]|]; simplify_eq/=.
    eexists. split; [done|]. simpl.
    eapply Forall_impl; [exact Hb|]. intros t' Ht'; simpl in *. lia.
Qed.

(** X8: the column checks are an invariant: if every stored transaction has
    type Income or Expense and a positive amount, the same holds after every
    method call, whether it succeeds or raises, and after [init_database]. *)
Theorem table_constraints_invariant (s : db) :
  schema_ok s →
  (∀ c, schema_ok (run c s)) ∧
  (∀ now salt s', init_database s now salt = Ok s' → schema_ok s').
Proof.
  intros Hok. split.
  - intros c. by apply run_schema_ok.
  - intros now salt s' Hinit. by eapply init_database_schema_ok.
Qed.

Lemma usernames_update_password (s : db) (salt username new_password : string) :
  u_username <$> users (update_password s salt username new_password).1
  = u_username <$> users s.
Proof.
  unfold update_password. destruct (hashpw new_password salt); [|done].
  simpl. rewrite <-list_fmap_compose.
  apply Forall_fmap_ext_1, Forall_forall. intros u _; simpl.
  by case_bool_decide.
Qed.

Lemma insert_user_key (s s' : db) (now username hashed role : string) :
  users_key s → insert_user s now username hashed role = Ok s' → users_key s'.
Proof.
  unfold users_key, insert_user. intros Hnd.
  destruct (check_role role); simpl; [|done].
  case_bool_decide as Hex; [done|]. intros [= <-]. simpl.
  rewrite fmap_app. apply NoDup_app. split; [done|].
  split; [|apply NoDup_singleton].
  intros n (u & -> & Hu)%list_elem_of_fmap Hn%list_elem_of_singleton.
  apply Hex, Exists_exists. by exists u.
Qed.

(** X9: user names stay distinct: no method call and no [init_database] ever
    stores two users of the same name. *)
Theorem usernames_unique_invariant (s : db) :
  users_key s →
  (∀ c, users_key (run c s)) ∧
  (∀ now salt s', init_database s now salt = Ok s' → users_key s').
Proof.
  intros Hnd. split.
  - intros c. destruct c; cbn [run].
    + unfold add_transaction.
      by destruct (check_transaction type amount) as [[]|].
    + unfold update_transaction. case_bool_decide; [|done].
      by destruct (check_transaction type amount) as [[]|].
    + done.
    + done.
    + unfold add_user.
      destruct (hashpw password salt) as [hashed|msg]; [|done].
      destruct (insert_user _ _ _ _ _) as [s'|[c|msg]] eqn:Hins; [|done..].
      by eapply insert_user_key.
    + unfold users_key. by rewrite usernames_update_password.
    + unfold log_login. by destruct (check_status status).
  - intros now salt s' Hinit.
    assert (users_key (seed_categories s)) as Hnd1
      by (unfold users_key; by rewrite users_seed_categories).
    destruct (init_database_cases s now salt s' Hinit)
      as [->|(hashed & _ & Hins)]; [done|].
    exact (insert_user_key _ _ _ _ _ _ Hnd1 Hins).
Qed.

(** X10: once a [CashflowDatabase] object has been constructed on a file,
    every later state has a user with the admin role: no method removes a
    user or changes a role. *)
Theorem admin_persists (s : db) :
  opened s → ∃ u, u ∈ users s ∧ u_role u = "admin".
Proof.
  intros Hop%opened_has_admin. unfold count_admins in Hop.
  destruct (filter _ (users s)) as [|u l] eqn:Hf; [done|].
  assert (u ∈ filter (λ u, u_role u = "admin") (users s)) as Hu
    by (rewrite Hf; left).
  apply list_elem_of_filter in Hu as [? ?]. by exists u.
Qed.

End invariants.

Lemma transaction_ids_invariant_witness :
  ids_ok ledger_db ∧
  ids_ok (run (H:=plain_bcrypt) (DeleteTransaction 2) ledger_db).
Proof.
  assert (ids_ok ledger_db) as Hids.
  { unfold ids_ok, ids_bounded. apply (bool_decide_unpack _). by vm_compute. }
  split; [exact Hids|].
  apply (transaction_ids_invariant (H:=plain_bcrypt) ledger_db Hids).
Defined.

Lemma table_constraints_invariant_witness :
  schema_ok ledger_db ∧
  schema_ok
    (run (H:=plain_bcrypt)
       (UpdateTransaction 1 "2024-01-05" "Income" "Sales" (fopp (cents 5)) None)
       ledger_db).
Proof.
  assert (schema_ok ledger_db) as Hok.
  { unfold schema_ok, row_ok. apply (bool_decide_unpack _). by vm_compute. }
  split; [exact Hok|].
  apply (table_constraints_invariant (H:=plain_bcrypt) ledger_db Hok).
Defined.

Lemma usernames_unique_invariant_witness :
  users_key ledger_db ∧
  users_key
    (run (H:=plain_bcrypt)
       (AddUser "2024-03-01 09:00:00" "salt3" "alice" "looking" "user")
       ledger_db).
Proof.
  assert (users_key ledger_db) as Hkey.
  { unfold users_key. apply (bool_decide_unpack _). by vm_compute. }
  split; [exact Hkey|].
  apply (usernames_unique_invariant (H:=plain_bcrypt) ledger_db Hkey).
Defined.

Lemma admin_persists_witness :
  ∃ u, u ∈ users
             (run (H:=plain_bcrypt)
                (UpdatePassword "salt4" "admin" "changed") fresh_db) ∧
       u_role u = "admin".
Proof.
  apply (admin_persists (H:=plain_bcrypt)).
  apply opened_call.
  apply (opened_first (H:=plain_bcrypt) empty_db "2024-01-01 08:00:00" "salt0");
    [reflexivity|vm_compute; reflexivity].
Defined.

(** ** Accounts: create, reset, verify *)

Section accounts.
Context `{Bcrypt}.

Lemma fetch_user_cons (s : db) (u : user) (l : list user) (v : string) :
  fetch_user (set_users s (u :: l)) v
  = if decide (u_username u = v) then Some (u_password_hash u, u_role u)
    else fetch_user (set_users s l) v.
Proof.
  unfold fetch_user; simpl. case_decide; [done|].
  by destruct (list_find _ l) as [[i x]|].
Qed.

Lemma fetch_user_users (s : db) (v : string) :
  fetch_user s v = fetch_user (set_users s (users s)) v.
Proof. done. Qed.

Lemma fetch_user_snoc_other (s : db) (l : list user) (u : user) (v : string) :
  u_username u ≠ v →
  fetch_user (set_users s (l ++ [u])) v = fetch_user (set_users s l) v.
Proof.
  intros Hne. induction l as [|x l IH]; simpl.
  - rewrite fetch_user_cons. by rewrite decide_False.
  - rewrite !fetch_user_cons. by rewrite IH.
Qed.

Lemma fetch_user_snoc_new (s : db) (l : list user) (u : user) :
  Forall (λ x, u_username x ≠ u_username u) l →
  fetch_user (set_users s (l ++ [u])) (u_username u)
  = Some (u_password_hash u, u_role u).
Proof.
  induction 1 as [|x l Hx _ IH]; simpl.
  - rewrite fetch_user_cons. by rewrite decide_True.
  - rewrite fetch_user_cons. by rewrite decide_False.
Qed.

Lemma verify_user_fetch (s s' : db) (v p : string) :
  fetch_user s' v = fetch_user s v → verify_user s' v p = verify_user s v p.
Proof. unfold verify_user. by intros ->. Qed.

(** X11: when [hashpw] raises on the password, [add_user] answers
    [(False, message)] and leaves the database as it was, whatever the name
    and the role.  When [hashpw] returns, [add_user] answers
    [(False, "Username already exists")] and leaves the database as it was
    when the name is taken, and also when the role is neither 'admin' nor
    'user'; otherwise it appends the user with the hash, after which
    [verify_user] accepts that password with that role, and the outcome of
    [verify_user] for every other name is what it was. *)
Theorem add_user_spec (s : db) (now salt username password role : string) :
  (∀ msg, hashpw password salt = Raises msg →
     add_user s now salt username password role = (s, (false, msg))) ∧
  (∀ hashed, hashpw password salt = Returns hashed →
     ((role ≠ "admin" ∧ role ≠ "user") ∨
      Exists (λ u, u_username u = username) (users s) →
      add_user s now salt username password role
      = (s, (false, "Username already exists"))) ∧
     (role = "admin" ∨ role = "user" →
      Forall (λ u, u_username u ≠ username) (users s) →
      ∃ s', add_user s now salt username password role
            = (s', (true, "User created successfully")) ∧
            users s' = users s ++ [User username hashed role now] ∧
            transactions s' = transactions s ∧
            verify_user s' username password = Ok (true, Some role) ∧
            (∀ v p, v ≠ username →
                    verify_user s' v p = verify_user s v p))).
Proof.
  unfold add_user. split; [by intros msg ->|].
  intros hashed Hh. rewrite Hh. unfold insert_user, check_role. split.
  - intros [[Ha Hu]|Hex].
    + by rewrite (bool_decide_false (role = "admin")),
        (bool_decide_false (role = "user")).
    + destruct (bool_decide (role = "admin") || bool_decide (role = "user"));
        simpl; [|done].
      by rewrite bool_decide_true.
  - intros Hrole Habs.
    assert (bool_decide (role = "admin") || bool_decide (role = "user") = true)
      as -> by (destruct Hrole as [-> | ->]; done).
    simpl. rewrite bool_decide_false by by apply Forall_Exists_neg.
    eexists. split; [reflexivity|]. split; [done|]. split; [done|]. split.
    + pose proof (fetch_user_snoc_new s (users s)
                    (User username hashed role now) Habs) as Hf.
      cbn [u_username u_password_hash u_role] in Hf.
      unfold verify_user. rewrite Hf.
      by rewrite (checkpw_hashpw _ _ _ Hh).
    + intros v p Hv. apply verify_user_fetch.
      rewrite (fetch_user_users s v).
      by apply (fetch_user_snoc_other s (users s)).
Qed.

Lemma fetch_user_update_password (s : db)
    (salt username new_password hashed v : string) :
  hashpw new_password salt = Returns hashed →
  fetch_user (update_password s salt username new_password).1 v
  = (λ hr, if decide (v = username) then (hashed, hr.2) else hr)
      <$> fetch_user s v.
Proof.
  intros Hh. rewrite (fetch_user_users s v). unfold update_password.
  rewrite Hh; simpl. generalize (users s). intros l.
  change (set_users (set_users s ?a) ?b) with (set_users s b).
  induction l as [|u l IH].
  - done.
  - rewrite fmap_cons, !fetch_user_cons, IH. clear IH.
    case_bool_decide as Hu; simpl.
    + destruct (decide (u_username u = v)) as [Hv|Hv]; simpl; [|done].
      rewrite decide_True by congruence. done.
    + destruct (decide (u_username u = v)) as [Hv|Hv]; simpl; [|done].
      rewrite decide_False by congruence. done.
Qed.

(** X12: after [update_password] on a stored user with a password that
    [hashpw] takes, [verify_user] accepts the new password and returns the
    role the user had, and for every other name [verify_user] answers as
    before. *)
Theorem update_password_then_verify (s : db)
    (salt username new_password stored_hash role hashed : string) :
  fetch_user s username = Some (stored_hash, role) →
  hashpw new_password salt = Returns hashed →
  verify_user (update_password s salt username new_password).1 username
    new_password = Ok (true, Some role) ∧
  (∀ v p, v ≠ username →
     verify_user (update_password s salt username new_password).1 v p
     = verify_user s v p).
Proof.
  intros Hf Hh. split.
  - unfold verify_user. rewrite (fetch_user_update_password _ _ _ _ _ _ Hh), Hf.
    simpl. rewrite decide_True by done. by rewrite (checkpw_hashpw _ _ _ Hh).
  - intros v p Hv. apply verify_user_fetch.
    rewrite (fetch_user_update_password _ _ _ _ _ _ Hh).
    destruct (fetch_user s v) as [[h r]|]; simpl; [|done].
    by rewrite decide_False.
Qed.

End accounts.

Lemma add_user_spec_witness :
  add_user (H:=plain_bcrypt) ledger_db "2024-03-01 09:00:00" "salt3" "carol"
    long_password "user"
  = (ledger_db, (false, too_long)) ∧
  add_user (H:=plain_bcrypt) ledger_db "2024-03-01 09:00:00" "salt3" "alice"
    "looking" "user"
  = (ledger_db, (false, "Username already exists")) ∧
  ∃ s', add_user (H:=plain_bcrypt) ledger_db "2024-03-01 09:00:00" "salt3"
          "carol" "secret1" "user"
        = (s', (true, "User created successfully")) ∧
        verify_user (H:=plain_bcrypt) s' "carol" "secret1"
        = Ok (true, Some "user").
Proof.
  split; [|split].
  - apply (proj1 (add_user_spec (H:=plain_bcrypt) ledger_db
                    "2024-03-01 09:00:00" "salt3" "carol" long_password "user")).
    by vm_compute.
  - apply (proj2 (add_user_spec (H:=plain_bcrypt) ledger_db
                    "2024-03-01 09:00:00" "salt3" "alice" "looking" "user")
             "salt3$looking"); [by vm_compute|].
    right. apply (bool_decide_unpack _). by vm_compute.
  - destruct (proj2 (proj2 (add_user_spec (H:=plain_bcrypt) ledger_db
                              "2024-03-01 09:00:00" "salt3" "carol" "secret1"
                              "user") "salt3$secret1" eq_refl))
      as (s' & Hadd & _ & _ & Hverify & _).
    + by right.
    + apply (bool_decide_unpack _). by vm_compute.
    + by exists s'.
Defined.

Lemma update_password_then_verify_witness :
  verify_user (H:=plain_bcrypt)
    (update_password (H:=plain_bcrypt) ledger_db "salt9" "alice" "newsecret").1
    "alice" "newsecret"
  = Ok (true, Some "user").
Proof.
  apply (update_password_then_verify (H:=plain_bcrypt) ledger_db "salt9" "alice"
           "newsecret" "salt1$wonderland" "user" "salt9$newsecret");
    by vm_compute.
Defined.

(** ** The forms of the login page and of the admin dashboard *)

Section forms.
Context `{Bcrypt}.

(** X13: when [verify_user] returns, submitting the login form appends
    exactly one entry to the login log, with the next id, the name typed and
    the status "Success" when the credentials were accepted and "Failure"
    otherwise; it changes no user and no transaction; and the session is
    signed in, under the role stored for the user, only in the first case.
    When [verify_user] raises, the form raises the same exception and logs
    nothing. *)
Theorem login_submit_spec (s : db) (st : session) (now username password : string) :
  (∀ success role,
     verify_user s username password = Ok (success, role) →
     ∃ s',
       login_submit s st now username password
       = Ok (s', if success then Session true role (Some username) else st) ∧
       login_logs s'
       = login_logs s ++
         [LoginLog (login_logs_seq s + 1) username now
            (if success then "Success" else "Failure")] ∧
       users s' = users s ∧ transactions s' = transactions s ∧
       (success = true →
        ∃ stored_hash r,
          fetch_user s username = Some (stored_hash, r) ∧
          checkpw password stored_hash = Returns true ∧ role = Some r)) ∧
  (∀ e, verify_user s username password = Raise e →
        login_submit s st now username password = Raise e).
Proof.
  unfold login_submit. split.
  - intros success role Hv. rewrite Hv.
    destruct success; simpl.
    + eexists. repeat split; try reflexivity. intros _.
      unfold verify_user in Hv.
      destruct (fetch_user s username) as [[h r]|]; [|done].
      destruct (checkpw password h) as [[]|] eqn:Hpw; [|done..].
      injection Hv as <-. by exists h, r.
    + eexists. repeat split; try reflexivity. done.
  - by intros e ->.
Qed.

(** X14: the sign-up form creates an account only when the two passwords
    typed are equal, the password has at least 6 characters and the name is
    free; the account always has the role 'user', so the number of admins is
    unchanged; and when the form reports an error the database is left as it
    was. *)
Theorem signup_submit_spec (s : db)
    (now salt new_user new_pass confirm_pass : string) :
  ((signup_submit s now salt new_user new_pass confirm_pass).2.1 = true →
   new_pass = confirm_pass ∧ (6 ≤ String.length new_pass)%nat ∧
   Forall (λ u, u_username u ≠ new_user) (users s) ∧
   (∃ hashed,
      hashpw new_pass salt = Returns hashed ∧
      users (signup_submit s now salt new_user new_pass confirm_pass).1
      = users s ++ [User new_user hashed "user" now]) ∧
   count_admins (signup_submit s now salt new_user new_pass confirm_pass).1
   = count_admins s) ∧
  ((signup_submit s now salt new_user new_pass confirm_pass).2.1 = false →
   (signup_submit s now salt new_user new_pass confirm_pass).1 = s).
Proof.
  unfold signup_submit.
  case_bool_decide as Hc; [by split|].
  case_bool_decide as Hl; [by split|].
  unfold add_user.
  destruct (hashpw new_pass salt) as [hashed|msg]; [|by split].
  unfold insert_user.
  assert (check_role "user" = true) as -> by done. cbn [negb].
  case_bool_decide as Hex; simpl; [by split|].
  split; [|done]. intros _.
  split; [by destruct (decide (new_pass = confirm_pass))|].
  split; [lia|]. split; [by apply Forall_Exists_neg|].
  split; [by exists hashed|].
  unfold count_admins; simpl. rewrite filter_app, length_app. simpl. lia.
Qed.

Lemma fetch_user_stored (s : db) (username : string) :
  Exists (λ u, u_username u = username) (users s) →
  ∃ stored_hash role, fetch_user s username = Some (stored_hash, role) ∧
    ∃ u, u ∈ users s ∧ u_username u = username ∧ u_role u = role.
Proof.
  intros (u & Hu & Hn)%Exists_exists. unfold fetch_user.
  destruct (list_find_elem_of (λ u, u_username u = username) (users s) u Hu Hn)
    as [[i x] Hfind].
  rewrite Hfind. simpl. eexists _, _. split; [done|].
  apply list_find_Some in Hfind as (Hi & Hx & _).
  exists x. split; [by eapply list_elem_of_lookup_2|done].
Qed.

(** X15: the reset form refuses a password of fewer than 6 characters and
    then changes nothing; with a longer password on which [hashpw] raises it
    reports the message of the exception and changes nothing; with a longer
    password that [hashpw] takes and a user picked from the list of
    [get_all_users] it reports success, and [verify_user] then accepts the
    new password under a role listed for that user. *)
Theorem reset_submit_spec (s : db) (salt reset_username reset_new_pass : string) :
  ((String.length reset_new_pass < 6)%nat →
   reset_submit s salt reset_username reset_new_pass
   = (s, (false, "Password must be at least 6 characters"))) ∧
  ((6 ≤ String.length reset_new_pass)%nat →
   ∀ msg, hashpw reset_new_pass salt = Raises msg →
   reset_submit s salt reset_username reset_new_pass = (s, (false, msg))) ∧
  ((6 ≤ String.length reset_new_pass)%nat →
   reset_username ∈ (get_all_users s).*1.*1 →
   ∀ hashed, hashpw reset_new_pass salt = Returns hashed →
   (reset_submit s salt reset_username reset_new_pass).2.1 = true ∧
   ∃ role created_at,
     (reset_username, role, created_at) ∈ get_all_users s ∧
     verify_user (reset_submit s salt reset_username reset_new_pass).1
       reset_username reset_new_pass = Ok (true, Some role)).
Proof.
  unfold reset_submit. split; [|split].
  - intros Hl. by rewrite bool_decide_true.
  - intros Hl msg Hh. rewrite bool_decide_false by lia.
    unfold update_password. by rewrite Hh.
  - intros Hl Hin hashed Hh. rewrite bool_decide_false by lia.
    assert ((update_password s salt reset_username reset_new_pass).2.1 = true)
      as Hok by (unfold update_password; by rewrite Hh).
    rewrite Hok. split; [done|].
    assert (Exists (λ u, u_username u = reset_username) (users s)) as Hex.
    { unfold get_all_users in Hin. rewrite <-!list_fmap_compose in Hin.
      apply list_elem_of_fmap in Hin as (u & -> & Hu).
      apply Exists_exists. by exists u. }
    destruct (fetch_user_stored s reset_username Hex)
      as (h & role & Hf & u & Hu & Hn & Hr).
    exists role, (u_created_at u). split.
    + unfold get_all_users. apply list_elem_of_fmap. exists u.
      by rewrite Hn, Hr.
    + cbn [fst snd]. unfold verify_user.
      rewrite (fetch_user_update_password _ _ _ _ _ _ Hh), Hf. simpl.
      rewrite decide_True by done. by rewrite (checkpw_hashpw _ _ _ Hh).
Qed.

End forms.

Lemma login_submit_spec_witness :
  (∃ s', login_submit (H:=plain_bcrypt) ledger_db anonymous
           "2024-03-01 09:00:00" "alice" "wonderland"
         = Ok (s', Session true (Some "user") (Some "alice"))) ∧
  login_submit (H:=plain_bcrypt) ledger_db anonymous "2024-03-01 09:00:00"
    "alice" long_password
  = Raise (ValueError too_long).
Proof.
  split.
  - destruct (proj1 (login_submit_spec (H:=plain_bcrypt) ledger_db anonymous
                       "2024-03-01 09:00:00" "alice" "wonderland")
                true (Some "user")) as (s' & Hs' & _); [by vm_compute|].
    by exists s'.
  - apply (proj2 (login_submit_spec (H:=plain_bcrypt) ledger_db anonymous
                    "2024-03-01 09:00:00" "alice" long_password)).
    by vm_compute.
Defined.

Lemma signup_submit_spec_witness :
  (∃ hashed,
     hashpw (Bcrypt:=plain_bcrypt) "secret1" "salt3" = Returns hashed ∧
     users
       (signup_submit (H:=plain_bcrypt) ledger_db "2024-03-01 09:00:00" "salt3"
          "carol" "secret1" "secret1").1
     = users ledger_db ++ [User "carol" hashed "user" "2024-03-01 09:00:00"]) ∧
  (signup_submit (H:=plain_bcrypt) ledger_db "2024-03-01 09:00:00" "salt3"
     "carol" "secret1" "secret2").1
  = ledger_db.
Proof.
  split.
  - apply (proj1 (signup_submit_spec (H:=plain_bcrypt) ledger_db
                    "2024-03-01 09:00:00" "salt3" "carol" "secret1" "secret1")).
    vm_compute. reflexivity.
  - apply (proj2 (signup_submit_spec (H:=plain_bcrypt) ledger_db
                    "2024-03-01 09:00:00" "salt3" "carol" "secret1" "secret2")).
    vm_compute. reflexivity.
Defined.

Lemma reset_submit_spec_witness :
  reset_submit (H:=plain_bcrypt) ledger_db "salt9" "alice" "short"
  = (ledger_db, (false, "Password must be at least 6 characters")) ∧
  reset_submit (H:=plain_bcrypt) ledger_db "salt9" "alice" long_password
  = (ledger_db, (false, too_long)) ∧
  (reset_submit (H:=plain_bcrypt) ledger_db "salt9" "alice" "newsecret").2.1
  = true.
Proof.
  split; [|split].
  - apply (proj1 (reset_submit_spec (H:=plain_bcrypt) ledger_db "salt9" "alice"
                    "short")).
    vm_compute. lia.
  - apply (proj1 (proj2 (reset_submit_spec (H:=plain_bcrypt) ledger_db "salt9"
                           "alice" long_password))).
    + vm_compute. lia.
    + by vm_compute.
  - apply (proj2 (proj2 (reset_submit_spec (H:=plain_bcrypt) ledger_db "salt9"
                           "alice" "newsecret")) ) with (hashed := "salt9$newsecret").
    + vm_compute. lia.
    + apply (bool_decide_unpack _). by vm_compute.
    + by vm_compute.
Defined.

(** ** The dashboard *)

Section dashboard_properties.
Context `{Numerics}.

Lemma amount_of_kind_month (s : db) (username kind : string) (year month : Z) :
  amount_of_kind kind (month_rows s username year month)
  = pd_sum (t_amount
              <$> filter (λ t, in_month year month (t_date t) ∧ t_type t = kind)
                    (merge_sort date_id_desc
                       (filter (λ t, t_username t = username)
                          (transactions s)))).
Proof.
  unfold amount_of_kind, month_rows, get_all_transactions, owned_by.
  rewrite !filter_fmap, <-list_fmap_compose, list_filter_filter.
  f_equal. f_equal. apply list_filter_iff. intros t; simpl. tauto.
Qed.

(** X16: when the owner has no transaction in the selected month, the
    dashboard shows 0 for all four metrics, the current balance included,
    whatever the owner's transactions of other months are; when there is
    one, income and expenses are the [Series.sum] of the amounts of the
    owner's Income and Expense transactions of that month, in the order of
    the listing, the net flow is their float64 difference, and the current
    balance is the balance of the last row of [get_cumulative_balance],
    which does not depend on the month. *)
Theorem dashboard_metrics_spec (s : db) (username : string) (year month : Z) :
  (Forall (λ t, ¬ in_month_of username year month t) (transactions s) →
   dashboard_metrics s username year month = Metrics fzero fzero fzero fzero) ∧
  (Exists (in_month_of username year month) (transactions s) →
   total_income (dashboard_metrics s username year month)
   = pd_sum (t_amount
               <$> filter (λ t, in_month year month (t_date t) ∧
                                t_type t = "Income")
                     (merge_sort date_id_desc
                        (filter (λ t, t_username t = username)
                           (transactions s)))) ∧
   total_expenses (dashboard_metrics s username year month)
   = pd_sum (t_amount
               <$> filter (λ t, in_month year month (t_date t) ∧
                                t_type t = "Expense")
                     (merge_sort date_id_desc
                        (filter (λ t, t_username t = username)
                           (transactions s)))) ∧
   net_flow (dashboard_metrics s username year month)
   = fsub (total_income (dashboard_metrics s username year month))
       (total_expenses (dashboard_metrics s username year month)) ∧
   ∃ r, last (get_cumulative_balance s username) = Some r ∧
        current_balance (dashboard_metrics s username year month)
        = b_cumulative_balance r).
Proof.
  pose proof (month_rows_Permutation s username year month) as Hperm.
  unfold dashboard_metrics. split.
  - intros Hnone. rewrite (filter_none _ _ Hnone) in Hperm.
    apply Permutation_nil_r in Hperm. rewrite Hperm.
    by rewrite bool_decide_false by (by intros []).
  - intros (t & Ht & Hm)%Exists_exists.
    rewrite bool_decide_true.
    + cbn [total_income total_expenses net_flow current_balance].
      rewrite !amount_of_kind_month.
      split; [done|]. split; [done|]. split; [done|].
      destruct (last (get_cumulative_balance s username)) as [r|] eqn:Hlast.
      { by exists r. }
      apply last_None in Hlast.
      assert (balance_dates s username = []) as Hnil
        by by rewrite <-balance_dates_column, Hlast.
      apply balance_dates_nil in Hnil.
      assert (t ∈ owned_by username (transactions s)) as Hin.
      { apply list_elem_of_filter. split; [|done]. by destruct Hm. }
      rewrite Hnil in Hin. by apply elem_of_nil in Hin.
    + intros Hnil. rewrite Hnil in Hperm. symmetry in Hperm.
      apply Permutation_nil_r in Hperm. apply fmap_nil_inv in Hperm.
      assert (t ∈ filter (in_month_of username year month) (transactions s))
        as Hin by by apply list_elem_of_filter.
      rewrite Hperm in Hin. by apply elem_of_nil in Hin.
Qed.

(** ** Monthly summary: months and years out of range *)

Lemma length_zero_pad (w : nat) (n : Z) : (w ≤ String.length (zero_pad w n))%nat.
Proof.
  unfold zero_pad. generalize (str n). intros digits.
  assert (∀ k, String.length (zeros k +:+ digits)
               = (k + String.length digits)%nat) as Hlen.
  { induction k as [|k IH]; [done|].
    change (zeros (S k) +:+ digits) with (String "0" (zeros k +:+ digits)).
    simpl. by rewrite IH. }
  rewrite Hlen. lia.
Qed.

Lemma length_str_small (year : Z) :
  0 ≤ year < 1000 → (String.length (str year) ≤ 3)%nat.
Proof.
  intros Hy.
  assert (Forall (λ y, (String.length (str y) ≤ 3)%nat) (seqZ 0 1000)) as Hall.
  { apply (bool_decide_unpack _). vm_compute. exact I. }
  rewrite Forall_forall in Hall. apply Hall. apply elem_of_seqZ. lia.
Qed.

(** X18: [get_monthly_summary] returns the empty frame for every month
    outside 1..12, and for every year from 0 to 999, whatever is stored. *)
Theorem get_monthly_summary_out_of_range (s : db) (username : string)
    (year month : Z) :
  ¬ (1 ≤ month ≤ 12) ∨ 0 ≤ year < 1000 →
  get_monthly_summary s username year month = [].
Proof.
  intros Hout. unfold get_monthly_summary.
  rewrite (filter_none (in_month_sql username year month)); [done|].
  apply Forall_forall. intros t _ (_ & HY & HM).
  unfold strftime_Y, strftime_m in HY, HM.
  destruct (parse_date (t_date t)) as [[[y m] dd]|] eqn:Hparse; [|done].
  simpl in HY, HM. injection HY as HY. injection HM as HM.
  destruct Hout as [Hmonth|Hyear].
  - apply zero_pad_month in HM; [|by eapply parse_date_month]. subst m.
    apply Hmonth. by eapply parse_date_month.
  - pose proof (length_zero_pad 4 y). pose proof (length_str_small year Hyear).
    rewrite HY in *. lia.
Qed.

End dashboard_properties.

Lemma dashboard_metrics_spec_witness :
  owned_by "alice" (transactions ledger_db) ≠ [] ∧
  dashboard_metrics (H:=sequential_numerics) ledger_db "alice" 2023 12
  = Metrics fzero fzero fzero fzero ∧
  net_flow (dashboard_metrics (H:=sequential_numerics) ledger_db "alice" 2024 1)
  = fsub (total_income
            (dashboard_metrics (H:=sequential_numerics) ledger_db "alice" 2024 1))
      (total_expenses
         (dashboard_metrics (H:=sequential_numerics) ledger_db "alice" 2024 1)).
Proof.
  split; [by vm_compute|]. split.
  - apply (dashboard_metrics_spec (H:=sequential_numerics) ledger_db "alice"
             2023 12).
    apply (bool_decide_unpack _). by vm_compute.
  - apply (dashboard_metrics_spec (H:=sequential_numerics) ledger_db "alice"
             2024 1).
    apply (bool_decide_unpack _). by vm_compute.
Defined.

Lemma get_monthly_summary_out_of_range_witness :
  get_monthly_summary (H:=sequential_numerics) ledger_db "alice" 2024 13 = [] ∧
  get_monthly_summary (H:=sequential_numerics) ancient_db "alice" 999 1 = [].
Proof.
  split.
  - apply (get_monthly_summary_out_of_range (H:=sequential_numerics) ledger_db
             "alice" 2024 13).
    left. lia.
  - apply (get_monthly_summary_out_of_range (H:=sequential_numerics) ancient_db
             "alice" 999 1).
    right. lia.
Defined.

(** ** The category registry *)

(** X19: [get_categories] returns the category names in ascending order,
    one entry per stored category; without a filter, or with the empty
    string as filter, these are all the names, and with another filter they
    are the names of the categories of that type. *)
Theorem get_categories_spec (s : db) :
  (∀ type_filter, StronglySorted String.le (get_categories s type_filter)) ∧
  get_categories s None ≡ₚ c_name <$> categories s ∧
  get_categories s (Some "") = get_categories s None ∧
  (∀ ty, ty ≠ "" →
         get_categories s (Some ty)
           ≡ₚ c_name <$> filter (λ c, c_type c = ty) (categories s)).
Proof.
  split; [|split; [|split]].
  - intros type_filter. apply (StronglySorted_merge_sort _).
  - unfold get_categories. apply merge_sort_Permutation.
  - done.
  - intros ty Hty. unfold get_categories.
    rewrite bool_decide_false by done. apply merge_sort_Permutation.
Qed.

Section registry.
Context `{Bcrypt}.

Lemma insert_or_ignore_category_spec (s : db) (nt : string * string) :
  categories s `prefix_of` categories (insert_or_ignore_category s nt) ∧
  Exists (λ c, c_name c = nt.1) (categories (insert_or_ignore_category s nt)) ∧
  (categories_key s → categories_key (insert_or_ignore_category s nt)).
Proof.
  unfold insert_or_ignore_category, categories_key.
  case_bool_decide as Hex; simpl; [done|]. split; [|split].
  - by apply prefix_app_r.
  - apply Exists_app. right. by constructor.
  - intros Hnd. rewrite fmap_app. apply NoDup_app. split; [done|].
    split; [|apply NoDup_singleton].
    intros n (c & -> & Hc)%list_elem_of_fmap Hn%list_elem_of_singleton.
    apply Hex, Exists_exists. by exists c.
Qed.

Lemma Exists_prefix {A} (P : A → Prop) (l1 l2 : list A) :
  l1 `prefix_of` l2 → Exists P l1 → Exists P l2.
Proof. intros [k ->] Hex. apply Exists_app. by left. Qed.

Lemma insert_categories_spec (l : list (string * string)) (s : db) :
  categories s `prefix_of` categories (foldl insert_or_ignore_category s l) ∧
  Forall (λ nt, Exists (λ c, c_name c = nt.1)
                  (categories (foldl insert_or_ignore_category s l))) l ∧
  (categories_key s → categories_key (foldl insert_or_ignore_category s l)).
Proof.
  revert s. induction l as [|nt l IH]; intros s; simpl; [done|].
  destruct (IH (insert_or_ignore_category s nt)) as (Hpre & Hall & Hkey).
  destruct (insert_or_ignore_category_spec s nt) as (Hpre1 & Hex1 & Hkey1).
  split; [by etrans|]. split; [|auto].
  constructor; [|done]. by eapply Exists_prefix.
Qed.

Lemma seed_categories_spec (s : db) :
  categories s `prefix_of` categories (seed_categories s) ∧
  Forall (λ nt, Exists (λ c, c_name c = nt.1) (categories (seed_categories s)))
    default_categories ∧
  (categories_key s → categories_key (seed_categories s)).
Proof. exact (insert_categories_spec default_categories s). Qed.

(** When every name is in the registry, the loop inserts nothing and
    advances the counter once per name. *)
Lemma insert_categories_present (l : list (string * string)) (s : db) :
  Forall (λ nt, Exists (λ c, c_name c = nt.1) (categories s)) l →
  foldl insert_or_ignore_category s l
  = set_categories s (categories s) (categories_seq s + Z.of_nat (length l)).
Proof.
  intros Hall. revert s Hall.
  induction l as [|nt l IH]; intros s Hall.
  - simpl. rewrite Z.add_0_r. by destruct s.
  - apply Forall_cons in Hall as [Hnt Hall]. cbn [foldl].
    assert (insert_or_ignore_category s nt
            = set_categories s (categories s) (categories_seq s + 1)) as ->.
    { unfold insert_or_ignore_category. by rewrite bool_decide_true. }
    rewrite IH by done. unfold set_categories; simpl.
    by rewrite Nat2Z.inj_succ, <-Z.add_1_l, Z.add_assoc.
Qed.

Lemma insert_user_frame (s s' : db) (now username hashed role : string) :
  insert_user s now username hashed role = Ok s' →
  categories s' = categories s ∧ categories_seq s' = categories_seq s ∧
  transactions s' = transactions s ∧ login_logs s' = login_logs s.
Proof.
  unfold insert_user. destruct (check_role role); simpl; [|done].
  case_bool_decide; [done|]. by intros [= <-].
Qed.

Lemma categories_init_database (s s' : db) (now salt : string) :
  init_database s now salt = Ok s' →
  categories s' = categories (seed_categories s).
Proof.
  intros [->|(hashed & _ & Hins)]%init_database_cases; [done|].
  by apply insert_user_frame in Hins as (? & _).
Qed.

(** X20: after [init_database] each of the nine default category names is
    in the registry; the categories stored before are all kept, in place and
    unchanged; the names stay distinct; and on a registry that was empty the
    categories are the nine defaults, in the order of the source. *)
Theorem init_database_categories (s s' : db) (now salt : string) :
  init_database s now salt = Ok s' →
  (∀ nt, nt ∈ default_categories → nt.1 ∈ get_categories s' None) ∧
  categories s `prefix_of` categories s' ∧
  (categories_key s → categories_key s') ∧
  (categories s = [] →
   (λ c, (c_name c, c_type c)) <$> categories s' = default_categories).
Proof.
  intros Hcat%categories_init_database.
  destruct (seed_categories_spec s) as (Hpre & Hall & Hkey).
  unfold categories_key. rewrite Hcat.
  split; [|split; [done|split; [done|]]].
  - intros nt Hnt. unfold get_categories. rewrite merge_sort_Permutation, Hcat.
    rewrite Forall_forall in Hall. pose proof (Hall nt Hnt) as Hex.
    apply Exists_exists in Hex as (c & Hc & <-).
    by apply list_elem_of_fmap_2.
  - intros Hnil. clear Hpre Hall Hkey Hcat.
    destruct s as [tx txs cats cseq us logs lseq]; simpl in Hnil; subst cats.
    by vm_compute.
Qed.

(** X21: when [init_database] has succeeded, running it again on the result,
    at any time and with any salt, succeeds and leaves the four tables and
    the counters of [transactions] and [login_logs] as they are; only the
    AUTOINCREMENT counter of [categories] moves, by one for each of the nine
    inserts that are ignored. *)
Theorem init_database_idempotent (s s' : db) (now salt now' salt' : string) :
  init_database s now salt = Ok s' →
  init_database s' now' salt'
  = Ok (set_categories s' (categories s') (categories_seq s' + 9)).
Proof.
  intros Hinit.
  rewrite init_database_with_admin by by eapply init_database_has_admin.
  f_equal. unfold seed_categories. rewrite insert_categories_present.
  - done.
  - destruct (seed_categories_spec s) as (_ & Hall & _).
    by rewrite (categories_init_database s s' now salt Hinit).
Qed.

End registry.

Lemma init_database_categories_witness :
  (λ c, (c_name c, c_type c)) <$> categories fresh_db = default_categories.
Proof.
  apply (init_database_categories (H:=plain_bcrypt) empty_db fresh_db
           "2024-01-01 08:00:00" "salt0");
    [vm_compute; reflexivity|reflexivity].
Defined.

Lemma init_database_idempotent_witness :
  init_database (H:=plain_bcrypt) fresh_db "2025-06-01 00:00:00" "pepper"
  = Ok (set_categories fresh_db (categories fresh_db) 18).
Proof.
  apply (init_database_idempotent (H:=plain_bcrypt) empty_db fresh_db
           "2024-01-01 08:00:00" "salt0").
  vm_compute. reflexivity.
Defined.

(** ** The login log *)

Global Instance login_time_desc_total : Total login_time_desc.
Proof.
  intros x y. unfold login_time_desc.
  destruct (total String.le (l_login_time x) (l_login_time y)); auto.
Qed.

Global Instance login_time_desc_trans : Transitive login_time_desc.
Proof. intros x y z Hyx Hzy. unfold login_time_desc in *. by etrans. Qed.

(** X23: [get_login_logs] lists exactly the stored entries, latest login
    time first.  [log_login] with the status "Success" or "Failure" adds one
    entry to that listing, and the entry heads the listing when its time is
    later than every stored one; with any other status it raises on the
    CHECK constraint and the listing stays as it was. *)
Theorem get_login_logs_spec (s : db) (now username status : string) :
  get_login_logs s ≡ₚ login_logs s ∧
  StronglySorted login_time_desc (get_login_logs s) ∧
  (status = "Success" ∨ status = "Failure" →
   ∃ s', log_login s now username status = Ok s' ∧
         get_login_logs s'
           ≡ₚ LoginLog (login_logs_seq s + 1) username now status
                :: get_login_logs s ∧
         (Forall (λ l, ¬ String.le now (l_login_time l)) (login_logs s) →
          head (get_login_logs s')
          = Some (LoginLog (login_logs_seq s + 1) username now status))) ∧
  (status ≠ "Success" → status ≠ "Failure" →
   log_login s now username status = Raise (IntegrityError CheckStatus) ∧
   get_login_logs (commit s (log_login s now username status))
   = get_login_logs s).
Proof.
  assert (∀ s0, StronglySorted login_time_desc (get_login_logs s0)) as Hsorted.
  { intros s0. apply (StronglySorted_merge_sort _). }
  split; [apply merge_sort_Permutation|]. split; [apply Hsorted|]. split.
  - intros Hstatus. unfold log_login, check_status.
    assert (bool_decide (status = "Success") || bool_decide (status = "Failure")
            = true) as ->.
    { destruct Hstatus as [-> | ->]; by vm_compute. }
    cbn [negb]. eexists. split; [reflexivity|].
    set (entry := LoginLog (login_logs_seq s + 1) username now status).
    set (s' := set_login_logs s (login_logs s ++ [entry]) (login_logs_seq s + 1)).
    assert (get_login_logs s' ≡ₚ entry :: get_login_logs s) as Hperm.
    { unfold get_login_logs. rewrite !merge_sort_Permutation. simpl.
      by rewrite Permutation_app_comm. }
    split; [exact Hperm|]. intros Hlater.
    pose proof (Hsorted s') as Hs'.
    destruct (get_login_logs s') as [|x l] eqn:Hl.
    { by apply Permutation_nil_l in Hperm. }
    simpl. f_equal.
    assert (x ∈ entry :: get_login_logs s) as Hx by (rewrite <-Hperm; left).
    apply elem_of_cons in Hx as [Hx|Hx]; [done|]. exfalso.
    unfold get_login_logs in Hx. rewrite merge_sort_Permutation in Hx.
    rewrite Forall_forall in Hlater. apply (Hlater x Hx).
    assert (entry ∈ x :: l) as He by (rewrite Hperm; left).
    apply elem_of_cons in He as [He|He].
    + by rewrite <-He.
    + apply StronglySorted_inv in Hs' as [_ Hall].
      rewrite Forall_forall in Hall. exact (Hall entry He).
  - intros Hs Hf. unfold log_login, check_status.
    by rewrite (bool_decide_false (status = "Success")),
      (bool_decide_false (status = "Failure")).
Qed.

Lemma get_login_logs_spec_witness :
  ∃ s', log_login
          (run (H:=plain_bcrypt)
             (LogLogin "2024-01-02 09:00:00" "admin" "Failure") fresh_db)
          "2024-01-03 10:00:00" "admin" "Success"
        = Ok s' ∧
        head (get_login_logs s')
        = Some (LoginLog 2 "admin" "2024-01-03 10:00:00" "Success").
Proof.
  destruct (proj1 (proj2 (proj2 (get_login_logs_spec
                                   (run (H:=plain_bcrypt)
                                      (LogLogin "2024-01-02 09:00:00" "admin"
                                         "Failure") fresh_db)
                                   "2024-01-03 10:00:00" "admin" "Success"))))
    as (s' & Hlog & _ & Hhead).
  - by left.
  - exists s'. split; [exact Hlog|]. apply Hhead.
    apply (bool_decide_unpack _). by vm_compute.
Defined.
